(** * Project tracker frontend: the API client, the route guard, logout
      and the Kanban board's optimistic move.

    The browser is modelled by explicit state passing: a [Browser] record
    holds the script-visible state the code mutates ([localStorage], the
    window location, the auth context's [user]), and every function returns
    the new state together with the list of effects it performed, in order.
    The network is a function from the number of the [fetch] call to what
    that call yields. *)

From Stdlib Require Import ZArith Ascii String Decimal DecimalString DecimalNat.
From stdpp Require Import base gmap strings list.

Set Warnings "-register-all".

(** ** JavaScript values the code relies on *)

Module JS.

(** A JS number restricted to the values the code can produce here:
    an integer or NaN. The arithmetic on [Num] is exact; it is that of
    the code's doubles as long as the integers involved do not exceed
    [2 ^ 53] in magnitude, and the statements that depend on a value read
    from a header carry that bound. *)
Inductive number :=
| Num (z : Z)
| NaN.

Definition mul (a : number) (k : Z) : number :=
  match a with
  | Num z => Num (z * k)
  | NaN => NaN
  end.

(** [Math.pow(2, attempt) * 1000]. *)
Definition backoff (attempt : nat) : number :=
  mul (Num (2 ^ Z.of_nat attempt)) 1000.

(** [String.prototype.includes]. *)
Fixpoint includes (s needle : string) : bool :=
  String.prefix needle s ||
  match s with
  | EmptyString => false
  | String _ rest => includes rest needle
  end.

(** The decimal text of a non-negative integer, as a template literal
    prints it. *)
Definition to_string (n : nat) : string :=
  NilZero.string_of_uint (Nat.to_uint n).

(** Truthiness of a string-or-null value. *)
Definition truthy (v : option string) : bool :=
  match v with
  | Some s => negb (String.eqb s "")
  | None => false
  end.

(** *** [parseInt] with no radix argument *)

Definition is_whitespace (c : ascii) : bool :=
  let n := nat_of_ascii c in
  (n =? 9)%nat || (n =? 10)%nat || (n =? 11)%nat || (n =? 12)%nat ||
  (n =? 13)%nat || (n =? 32)%nat || (n =? 160)%nat.

Fixpoint trim_start (s : string) : string :=
  match s with
  | String c rest => if is_whitespace c then trim_start rest else s
  | EmptyString => EmptyString
  end.

Definition digit_value (c : ascii) : option Z :=
  let n := Z.of_nat (nat_of_ascii c) in
  if (48 <=? n)%Z && (n <=? 57)%Z then Some (n - 48)%Z
  else if (97 <=? n)%Z && (n <=? 122)%Z then Some (n - 87)%Z
  else if (65 <=? n)%Z && (n <=? 90)%Z then Some (n - 55)%Z
  else None.

(** Reads the longest prefix of digits below [radix]; [acc] is [None]
    until a digit has been read. *)
Fixpoint parse_digits (radix : Z) (s : string) (acc : option Z) : option Z :=
  match s with
  | EmptyString => acc
  | String c rest =>
      match digit_value c with
      | Some d =>
          if (d <? radix)%Z
          then parse_digits radix rest (Some (default 0%Z acc * radix + d)%Z)
          else acc
      | None => acc
      end
  end.

Definition strip_sign (s : string) : Z * string :=
  match s with
  | String "-" rest => ((-1)%Z, rest)
  | String "+" rest => (1%Z, rest)
  | _ => (1%Z, s)
  end.

Definition strip_hex_prefix (s : string) : Z * string :=
  match s with
  | String "0" (String "x" rest) => (16%Z, rest)
  | String "0" (String "X" rest) => (16%Z, rest)
  | _ => (10%Z, s)
  end.

Definition parseInt (s : string) : number :=
  let '(sign, s1) := strip_sign (trim_start s) in
  let '(radix, s2) := strip_hex_prefix s1 in
  match parse_digits radix s2 None with
  | Some z => Num (sign * z)
  | None => NaN
  end.

(** An [Error] object: the three properties the client reads or sets. *)
Record Error := {
  name : string;
  message : string;
  code : option string;
}.

(** [new Error(msg)]. *)
Definition new_Error (msg : string) : Error :=
  {| name := "Error"; message := msg; code := None |}.

End JS.

(** ** Browser state and effects *)

(** A JSON value (numbers restricted to integers). *)
Inductive JSON :=
| JNull
| JBool (b : bool)
| JNum (z : Z)
| JStr (s : string)
| JArr (items : list JSON)
| JObj (fields : list (string * JSON)).

(** [k in obj] for a JSON value. *)
Definition has_field (k : string) (v : JSON) : bool :=
  match v with
  | JObj fields => bool_decide (k ∈ fields.*1)
  | _ => false
  end.

(** The text a request carries as its body. The client builds it only by
    [JSON.stringify], so the text is represented by the value it encodes. *)
Inductive BodyText :=
| JSON_stringify (v : JSON).

Definition body_has_field (k : string) (b : option BodyText) : bool :=
  match b with
  | Some (JSON_stringify v) => has_field k v
  | None => false
  end.

(** The second argument of [fetch], and the [options] of [request]:
    an absent [headers] object is the empty map. *)
Record RequestInit := {
  method : option string;
  body : option BodyText;
  headers : gmap string string;
  credentials : option string;
}.

(** The parsed body of a response: an object whose [message], when it has
    one, is a string (the backend's error envelope); [content] is the
    whole value. *)
Record Data := {
  data_message : option string;
  content : JSON;
}.

Record Response := {
  status : nat;
  statusText : string;
  (** [response.headers.get('Retry-After')], [None] for [null] *)
  retryAfter : option string;
  (** what [response.json()] resolves to, [None] when it rejects *)
  json : option Data;
}.

(** [response.ok] *)
Definition ok (r : Response) : bool :=
  (200 <=? status r)%nat && (status r <=? 299)%nat.

Inductive FetchOutcome :=
| Rejected (e : JS.Error)
| Resolved (r : Response).

(** What the n-th call of [fetch] within one [request] yields (n from 1). *)
Definition Network := nat → FetchOutcome.

Record User := {
  user_name : string;
  role : string;
}.

Record Browser := {
  localStorage : gmap string string;
  location_href : string;
  (** the [user] state of the auth context *)
  user : option User;
}.

Inductive Event :=
| EvFetch (url : string) (config : RequestInit)
| EvRemoveItem (key : string)
| EvSetUser (u : option User)
| EvNavigate (href : string)
| EvSleep (delay : JS.number)
| EvConsoleError (label : string) (e : JS.Error).

Definition localStorage_removeItem (key : string) (st : Browser) : Browser :=
  {| localStorage := delete key (localStorage st);
     location_href := location_href st;
     user := user st |}.

Definition set_location_href (href : string) (st : Browser) : Browser :=
  {| localStorage := localStorage st;
     location_href := href;
     user := user st |}.

Definition setUser (u : option User) (st : Browser) : Browser :=
  {| localStorage := localStorage st;
     location_href := location_href st;
     user := u |}.

Definition is_fetch (e : Event) : bool :=
  match e with EvFetch _ _ => true | _ => false end.

Definition is_sleep (e : Event) : bool :=
  match e with EvSleep _ => true | _ => false end.

Definition is_navigate (e : Event) : bool :=
  match e with EvNavigate _ => true | _ => false end.

Definition is_removeItem (e : Event) : bool :=
  match e with EvRemoveItem _ => true | _ => false end.

(** Number of events of one kind in a trace. *)
Definition count (p : Event → bool) (tr : list Event) : nat :=
  length (filter (λ e, p e = true) tr).

(** How a call ends. *)
Inductive Completion :=
| Return (data : Data)
| ReturnUndefined
| Throw (e : JS.Error).

(** ** APIClient *)

Module APIClient.

Definition getAuthHeaders : gmap string string :=
  {[ "Content-Type" := "application/json" ]}.

(** The [config] object of [request]: the spread of [options], then
    [headers] and [credentials] overwritten. In the merged headers the
    caller's entries win over [getAuthHeaders]. *)
Definition config (options : RequestInit) : RequestInit :=
  {| method := method options;
     body := body options;
     headers := headers options ∪ getAuthHeaders;
     credentials := Some "include" |}.

(** [`HTTP ${response.status}: ${response.statusText}`] *)
Definition http_message (r : Response) : string :=
  "HTTP " +:+ JS.to_string (status r) +:+ ": " +:+ statusText r.

(** [data.message || fallback] *)
Definition message_or (d : Data) (fallback : string) : string :=
  if JS.truthy (data_message d) then default fallback (data_message d)
  else fallback.

(** What one pass through the [try] block or the [catch] block decides. *)
Inductive Flow :=
| Continue
| Done (c : Completion).

(** The [TypeError] that reading [data.message] raises when the body
    parsed to [null], in V8's wording; the wordings of the other engines
    likewise mention neither "fetch" nor "HTTP 4". *)
Definition null_read_error : JS.Error :=
  {| JS.name := "TypeError";
     JS.message := "Cannot read properties of null (reading 'message')";
     JS.code := None |}.

(** [throw new Error(data.message || fallback)]: the read of [message]
    comes first, and on a body that parsed to [null] it raises. *)
Definition throw_message (d : Data) (fallback : string) : Flow :=
  match content d with
  | JNull => Done (Throw null_read_error)
  | _ => Done (Throw (JS.new_Error (message_or d fallback)))
  end.

(** Source lines 169-191: parse the body, then throw on a non-ok status or
    return the data. *)
Definition parse_and_check (response : Response) : Flow :=
  match json response with
  | None => Done (Throw (JS.new_Error (http_message response)))
  | Some data =>
      if negb (ok response) then
        if (status response =? 401)%nat then
          throw_message data "Authentication failed"
        else if (status response =? 429)%nat then
          Done (Throw (JS.new_Error "Too many requests. Please try again later."))
        else if (500 <=? status response)%nat then
          Done (Throw (JS.new_Error "Server error. Please try again later."))
        else
          throw_message data (http_message response)
      else Done (Return data)
  end.

(** Source lines 162-167 and what follows them. *)
Definition server_error_check (attempt retries : nat) (response : Response)
    (st : Browser) : Browser * list Event * Flow :=
  if (500 <=? status response)%nat && (attempt <? retries)%nat then
    (st, [EvSleep (JS.backoff attempt)], Continue)
  else (st, [], parse_and_check response).

(** The delay computed for a 429 response (source line 155). *)
Definition rate_limit_delay (attempt : nat) (response : Response) : JS.number :=
  if JS.truthy (retryAfter response)
  then JS.mul (JS.parseInt (default "" (retryAfter response))) 1000
  else JS.backoff attempt.

(** The body of the [try] block once [fetch] has resolved or rejected. *)
Definition try_block (attempt retries : nat) (outcome : FetchOutcome)
    (st : Browser) : Browser * list Event * Flow :=
  match outcome with
  | Rejected e => (st, [], Done (Throw e))
  | Resolved response =>
      if (status response =? 401)%nat then
        (set_location_href "/login" (localStorage_removeItem "user" st),
         [EvRemoveItem "user"; EvNavigate "/login"],
         Done (Throw (JS.new_Error "Unauthorized")))
      else if (status response =? 429)%nat then
        let delay := rate_limit_delay attempt response in
        if (attempt <? retries)%nat then (st, [EvSleep delay], Continue)
        else server_error_check attempt retries response st
      else server_error_check attempt retries response st
  end.

Definition networkError : JS.Error :=
  {| JS.name := "Error";
     JS.message := "Unable to connect to the server. Please check your connection and try again.";
     JS.code := Some "NETWORK_ERROR" |}.

(** The test of source line 201 on the error's message. *)
Definition client_error_message (msg : string) : bool :=
  JS.includes msg "HTTP 4" && negb (JS.includes msg "401")
  && negb (JS.includes msg "429").

(** The [catch] block. *)
Definition catch_block (attempt retries : nat) (error : JS.Error)
  : list Event * Flow :=
  if String.eqb (JS.name error) "TypeError"
     && JS.includes (JS.message error) "fetch" then
    ([], Done (Throw networkError))
  else if (attempt =? retries)%nat || client_error_message (JS.message error) then
    ([EvConsoleError "API Error:" error], Done (Throw error))
  else if (attempt <? retries)%nat then
    ([EvSleep (JS.backoff attempt)], Continue)
  else ([EvConsoleError "API Error:" error], Done (Throw error)).

(** One iteration of the [for] loop: the [fetch], the [try] block and,
    when that throws, the [catch] block. *)
Definition iteration (net : Network) (url : string) (cfg : RequestInit)
    (attempt retries : nat) (st : Browser) : Browser * list Event * Flow :=
  let '(st1, ev1, flow) := try_block attempt retries (net attempt) st in
  match flow with
  | Done (Throw e) =>
      let '(ev2, flow2) := catch_block attempt retries e in
      (st1, EvFetch url cfg :: ev1 ++ ev2, flow2)
  | _ => (st1, EvFetch url cfg :: ev1, flow)
  end.

(** The [for] loop from [attempt] on. [fuel] bounds the iterations; [None]
    means the fuel ran out. *)
Fixpoint request_loop (net : Network) (url : string) (cfg : RequestInit)
    (retries fuel attempt : nat) (st : Browser)
  : option (Browser * list Event * Completion) :=
  if (attempt <=? retries)%nat then
    match fuel with
    | O => None
    | S fuel' =>
        let '(st1, ev1, flow) := iteration net url cfg attempt retries st in
        match flow with
        | Done c => Some (st1, ev1, c)
        | Continue =>
            match request_loop net url cfg retries fuel' (S attempt) st1 with
            | Some (st2, ev2, c) => Some (st2, ev1 ++ ev2, c)
            | None => None
            end
        end
    end
  else Some (st, [], ReturnUndefined).

(** [request(endpoint, options, retries)] *)
Definition request (baseURL : string) (net : Network) (endpoint : string)
    (options : RequestInit) (retries : nat) (st : Browser)
  : option (Browser * list Event * Completion) :=
  request_loop net (baseURL +:+ endpoint) (config options) retries retries 1 st.

(** A response that reaches the parsing step of the [try] block: neither a
    401 nor a status the loop retries before parsing. *)
Definition reaches_parse (attempt retries : nat) (r : Response) : Prop :=
  status r ≠ 401 ∧ (attempt < retries → status r ≠ 429 ∧ status r < 500).

(** The [options] each public method passes. *)
Definition options_of (m : string) (b : option JSON) : RequestInit :=
  {| method := Some m;
     body := JSON_stringify <$> b;
     headers := ∅;
     credentials := None |}.

Definition default_retries : nat := 3.

Definition get baseURL net (endpoint : string) st :=
  request baseURL net endpoint (options_of "GET" None) default_retries st.

Definition post baseURL net (endpoint : string) (b : JSON) st :=
  request baseURL net endpoint (options_of "POST" (Some b)) default_retries st.

Definition put baseURL net (endpoint : string) (b : JSON) st :=
  request baseURL net endpoint (options_of "PUT" (Some b)) default_retries st.

Definition patch baseURL net (endpoint : string) (b : JSON) st :=
  request baseURL net endpoint (options_of "PATCH" (Some b)) default_retries st.

Definition delete baseURL net (endpoint : string) st :=
  request baseURL net endpoint (options_of "DELETE" None) default_retries st.

End APIClient.

(** ** Reading the result of a call *)

Definition Result := option (Browser * list Event * Completion).

Definition trace_of (r : Result) : list Event :=
  match r with Some (_, tr, _) => tr | None => [] end.

Definition completion_of (r : Result) : option Completion :=
  match r with Some (_, _, c) => Some c | None => None end.

(** A call that settles: it returns a payload or throws. *)
Definition settles (c : Completion) : Prop :=
  (∃ d, c = Return d) ∨ (∃ e, c = Throw e).

(** The url and config of every [fetch] in a trace, in order. *)
Definition fetched (tr : list Event) : list (string * RequestInit) :=
  omap (λ e, match e with EvFetch u c => Some (u, c) | _ => None end) tr.

(** A call of one of the five public methods with its arguments. *)
Inductive Call :=
| Get
| Post (b : JSON)
| Put (b : JSON)
| Patch (b : JSON)
| Delete.

Definition call (baseURL : string) (net : Network) (endpoint : string)
    (c : Call) (st : Browser) : Result :=
  match c with
  | Get => APIClient.get baseURL net endpoint st
  | Post b => APIClient.post baseURL net endpoint b st
  | Put b => APIClient.put baseURL net endpoint b st
  | Patch b => APIClient.patch baseURL net endpoint b st
  | Delete => APIClient.delete baseURL net endpoint st
  end.

(** The body argument the caller handed to the method, if it takes one. *)
Definition caller_body (c : Call) : option JSON :=
  match c with
  | Post b | Put b | Patch b => Some b
  | Get | Delete => None
  end.

(** ** ProtectedRoute *)

Module ProtectedRoute.

(** What the component returns. [Children] stands for the [children] prop
    handed back unchanged. *)
Inductive Element :=
| LoadingDiv
| Navigate (to : string) (replace : bool)
| Children.

Record Props := {
  requireAdmin : bool;
  requireManager : bool;
}.

(** The two props default to [false]. *)
Definition default_props : Props :=
  {| requireAdmin := false; requireManager := false |}.

(** What [useAuth()] hands the component. *)
Record Auth := {
  auth_user : option User;
  loading : bool;
}.

Definition render (props : Props) (auth : Auth) : Element :=
  if loading auth then LoadingDiv
  else
    match auth_user auth with
    | None => Navigate "/login" true
    | Some user =>
        let requiresManagerAccess := requireManager props || requireAdmin props in
        if requiresManagerAccess
           && negb (String.eqb (role user) "Manager")
           && negb (String.eqb (role user) "Admin")
        then Navigate "/dashboard" true
        else Children
    end.

End ProtectedRoute.

(** ** AuthProvider.logout *)

Module AuthProvider.

Definition logout_request : RequestInit :=
  {| method := Some "POST";
     body := None;
     headers := ∅;
     credentials := Some "include" |}.

(** The [try] block awaits the fetch; a rejection is thrown into the
    [catch] block, which logs it. A resolved response of any status is
    ignored. *)
Definition logout_try_catch (outcome : FetchOutcome) : list Event :=
  EvFetch "/auth/logout" logout_request ::
  match outcome with
  | Resolved _ => []
  | Rejected error => [EvConsoleError "Logout error:" error]
  end.

(** The [finally] block. *)
Definition logout_finally (st : Browser) : Browser * list Event :=
  (set_location_href "/login" (setUser None (localStorage_removeItem "user" st)),
   [EvRemoveItem "user"; EvSetUser None; EvNavigate "/login"]).

Definition logout (outcome : FetchOutcome) (st : Browser)
  : Browser * list Event :=
  let ev1 := logout_try_catch outcome in
  let '(st', ev2) := logout_finally st in
  (st', ev1 ++ ev2).

End AuthProvider.

(** ** StatusBoard *)

Module StatusBoard.

(** Modelled from the spec: the three task statuses, one per column. The
    board component (KanbanBoard, imported by the test suite from
    src/components) is not among the sources. *)
Inductive Status :=
| ToDo
| InProgress
| Finished.

Global Instance Status_eq_dec : EqDecision Status.
Proof. solve_decision. Defined.

Definition status_name (s : Status) : string :=
  match s with
  | ToDo => "To Do"
  | InProgress => "In Progress"
  | Finished => "Done"
  end.

(** Modelled from the spec: a task of the data model (the board
    component is not among the sources). *)
Record Task := {
  id : nat;
  title : string;
  description : option string;
  task_status : Status;
  assignee : option nat;
}.

Definition with_status (s : Status) (t : Task) : Task :=
  {| id := id t; title := title t; description := description t;
     task_status := s; assignee := assignee t |}.

(** Modelled from the spec: the board (its component is not among the
    sources) holds the task collection in display order, and a column is
    derived from [task.status] alone. *)
Definition column (s : Status) (tasks : list Task) : list Task :=
  filter (λ t, task_status t = s) tasks.

(** Modelled from the spec: the task a [taskId] refers to (the board
    component is not among the sources). *)
Definition find_task (taskId : nat) (tasks : list Task) : option Task :=
  list_find (λ t, id t = taskId) tasks ≫= λ p, Some p.2.

(** Modelled from the spec: the column of a task and its index within
    that column (the board component is not among the sources). *)
Definition position (taskId : nat) (tasks : list Task) : option (Status * nat) :=
  t ← find_task taskId tasks;
  i ← list_find (λ t, id t = taskId) (column (task_status t) tasks);
  Some (task_status t, i.1).

(** Modelled from the spec: the drop (handled by the board component,
    which is not among the sources) inserts the task at the index the drop
    target indicates within the target column, shifting the tasks after it
    down by one; past the end of the column it goes last. *)
Fixpoint insert_in_column (s : Status) (index : nat) (t : Task)
    (tasks : list Task) : list Task :=
  match tasks with
  | [] => [t]
  | x :: rest =>
      if decide (task_status x = s) then
        match index with
        | O => t :: tasks
        | S index' => x :: insert_in_column s index' t rest
        end
      else x :: insert_in_column s index t rest
  end.

(** Modelled from the spec: the optimistic local reorder of [move] (the
    board component is not among the sources). *)
Definition move_local (t : Task) (targetStatus : Status) (targetIndex : nat)
    (tasks : list Task) : list Task :=
  insert_in_column targetStatus targetIndex (with_status targetStatus t)
    (filter (λ x, id x ≠ id t) tasks).

(** Modelled from the spec: the states of the per-task state machine of
    the board component, which is not among the sources. *)
Inductive Phase :=
| Idle
| Dragging
| Pending (target : Status)
| Committed
| RolledBack.

(** Modelled from the spec: the local state of the board component,
    which is not among the sources: the task collection, the
    notifications raised, and per task the revision counter and the state
    of its state machine. *)
Record Board := {
  tasks : list Task;
  (** the notifications raised to the user, oldest first *)
  notifications : list string;
  revisions : gmap nat nat;
  phases : gmap nat Phase;
}.

(** Modelled from the spec: the revision counter of a task, 0 before its
    first move (the board component is not among the sources). *)
Definition revision (taskId : nat) (b : Board) : nat :=
  default 0 (revisions b !! taskId).

(** Modelled from the spec: the state of a task's machine, [Idle] until
    it is touched (the board component is not among the sources). *)
Definition phase (taskId : nat) (b : Board) : Phase :=
  default Idle (phases b !! taskId).

(** Modelled from the spec: the pre-drag snapshot of a move, the column
    and the position of the task (the board component is not among the
    sources). *)
Record Snapshot := {
  snap_status : Status;
  snap_index : nat;
}.

(** Modelled from the spec: a persist call in flight, with the revision
    it was sent at and the snapshot to go back to (the board component is
    not among the sources). *)
Record InFlight := {
  flight_task : nat;
  flight_revision : nat;
  flight_snapshot : Snapshot;
}.

(** Modelled from the spec: the body of [PATCH /tasks/{id}] for a status
    change (the board component that builds it is not among the sources). *)
Definition status_patch (s : Status) : JSON :=
  JObj [("status", JStr (status_name s))].

(** Modelled from the spec: the persist call of a move, which the board
    component (not among the sources) sends through the client as
    [PATCH /tasks/{id}]. *)
Definition persist_call (baseURL : string) (net : Network) (taskId : nat)
    (targetStatus : Status) (st : Browser) : Result :=
  APIClient.patch baseURL net ("/tasks/" +:+ JS.to_string taskId)
    (status_patch targetStatus) st.

(** Modelled from the spec: grabbing a card (the board component is not
    among the sources); nothing is mutated yet. *)
Definition drag (taskId : nat) (b : Board) : Board :=
  {| tasks := tasks b;
     notifications := notifications b;
     revisions := revisions b;
     phases := <[taskId := Dragging]> (phases b) |}.

(** Modelled from the spec: the drop of [move(taskId, targetStatus,
    targetIndex)] in the board component, which is not among the sources.
    The task must exist; the local state is updated at once, the task's
    revision counter goes up by one, and the persist call to send is
    handed back with that revision and the pre-drag column and position. *)
Definition drop_card (taskId : nat) (targetStatus : Status) (targetIndex : nat)
    (b : Board) : option (Board * InFlight) :=
  t ← find_task taskId (tasks b);
  pos ← position taskId (tasks b);
  let rev := S (revision taskId b) in
  Some ({| tasks := move_local t targetStatus targetIndex (tasks b);
           notifications := notifications b;
           revisions := <[taskId := rev]> (revisions b);
           phases := <[taskId := Pending targetStatus]> (phases b) |},
        {| flight_task := taskId;
           flight_revision := rev;
           flight_snapshot := {| snap_status := pos.1; snap_index := pos.2 |} |}).

(** Modelled from the spec: the rollback of the board component, which is
    not among the sources: the task goes back to the column and the
    position of the snapshot. *)
Definition restore (f : InFlight) (l : list Task) : list Task :=
  match find_task (flight_task f) l with
  | Some t =>
      move_local t (snap_status (flight_snapshot f))
        (snap_index (flight_snapshot f)) l
  | None => l
  end.

Section Move.

(** How the board reads the task record out of the server's answer is
    not specified; it is a parameter. *)
Variable task_of_data : Data → Task.

(** Modelled from the spec: what the board component, which is not among
    the sources, does when a persist call settles. An answer to a
    revision that is no longer the task's current one is stale and is
    dropped. Otherwise a success puts the server's record in the place of
    the optimistic one, and a failure rolls the task back and raises a
    notification. *)
Definition settle (f : InFlight) (c : Completion) (b : Board) : Board :=
  if (flight_revision f =? revision (flight_task f) b)%nat then
    match c with
    | Return data =>
        {| tasks := (λ x, if decide (id x = flight_task f)
                          then task_of_data data else x) <$> tasks b;
           notifications := notifications b;
           revisions := revisions b;
           phases := <[flight_task f := Committed]> (phases b) |}
    | Throw e =>
        {| tasks := restore f (tasks b);
           notifications := notifications b ++ [JS.message e];
           revisions := revisions b;
           phases := <[flight_task f := RolledBack]> (phases b) |}
    | ReturnUndefined => b
    end
  else b.

(** Modelled from the spec: [move(taskId, targetStatus, targetIndex)] of
    the board component, which is not among the sources, when nothing
    else happens between the drop and the end of its persist call: the
    drop, the persist call through the client's [patch], and the settling
    of its outcome. A [taskId] that names no task leaves everything as it
    is. *)
Definition move (baseURL : string) (net : Network) (taskId : nat)
    (targetStatus : Status) (targetIndex : nat) (b : Board) (st : Browser)
  : Board * Browser * list Event :=
  match drop_card taskId targetStatus targetIndex b with
  | None => (b, st, [])
  | Some (b1, flight) =>
      match persist_call baseURL net taskId targetStatus st with
      | Some (st', ev, c) => (settle flight c b1, st', ev)
      | None => (b1, st, [])
      end
  end.

End Move.

End StatusBoard.

(** ** Concrete inputs used by the examples *)

Module Fixtures.

Definition browser : Browser :=
  {| localStorage := {[ "user" := "{}" ]};
     location_href := "/dashboard";
     user := Some {| user_name := "Jane"; role := "Employee" |} |}.

Definition response (code : nat) (text : string) (retry : option string)
    (parsed : option Data) : Response :=
  {| status := code; statusText := text; retryAfter := retry; json := parsed |}.

Definition payload : Data :=
  {| data_message := None; content := JObj [("tasks", JArr [])] |}.

Definition envelope (msg : string) : Data :=
  {| data_message := Some msg;
     content := JObj [("success", JBool false); ("message", JStr msg)] |}.

(** The options of a plain GET. *)
Definition get_options : RequestInit := APIClient.options_of "GET" None.

(** Every attempt gets the same response. *)
Definition always (r : Response) : Network := λ _, Resolved r.

(** The first attempt gets [first], the later ones [then_]. *)
Definition first_then (first then_ : FetchOutcome) : Network :=
  λ n, if (n =? 1)%nat then first else then_.

(** Every attempt is rejected with the same error. *)
Definition always_rejected (e : JS.Error) : Network := λ _, Rejected e.

(** Safari's wording of a network failure. *)
Definition load_failed : JS.Error :=
  {| JS.name := "TypeError"; JS.message := "Load failed"; JS.code := None |}.

(** Chrome's wording of a network failure. *)
Definition failed_to_fetch : JS.Error :=
  {| JS.name := "TypeError"; JS.message := "Failed to fetch"; JS.code := None |}.

Definition not_found : Response :=
  response 404 "Not Found" None (Some (envelope "Task not found")).

Definition unauthorized : Response :=
  response 401 "Unauthorized" None (Some (envelope "No token provided")).

Definition server_down : Response :=
  response 500 "Internal Server Error" None None.

Definition task (n : nat) (s : StatusBoard.Status) : StatusBoard.Task :=
  {| StatusBoard.id := n; StatusBoard.title := "Task";
     StatusBoard.description := None; StatusBoard.task_status := s;
     StatusBoard.assignee := None |}.

Definition three_tasks : list StatusBoard.Task :=
  [task 1 StatusBoard.ToDo; task 2 StatusBoard.InProgress;
   task 3 StatusBoard.Finished].

Definition board : StatusBoard.Board :=
  {| StatusBoard.tasks := three_tasks; StatusBoard.notifications := [];
     StatusBoard.revisions := ∅; StatusBoard.phases := ∅ |}.

End Fixtures.

(** ** Executions of the request loop *)

(** The executions of the [for] loop of [request] from [attempt] on, as a
    relation between the state before and the state, trace and completion
    after: the loop falls off its end, an iteration ends the call, or an
    iteration goes round and the rest of the loop runs. *)
Inductive runs (net : Network) (url : string) (cfg : RequestInit)
    (retries : nat) : nat → Browser → Browser → list Event → Completion → Prop :=
| runs_off attempt st :
    retries < attempt →
    runs net url cfg retries attempt st st [] ReturnUndefined
| runs_done attempt st st1 ev c :
    attempt ≤ retries →
    APIClient.iteration net url cfg attempt retries st = (st1, ev, APIClient.Done c) →
    runs net url cfg retries attempt st st1 ev c
| runs_continue attempt st st1 ev st2 ev2 c :
    attempt ≤ retries →
    APIClient.iteration net url cfg attempt retries st = (st1, ev, APIClient.Continue) →
    runs net url cfg retries (S attempt) st1 st2 ev2 c →
    runs net url cfg retries attempt st st2 (ev ++ ev2) c.

(** The delays of the waits in a trace, in order. *)
Definition sleeps (tr : list Event) : list JS.number :=
  omap (λ e, match e with EvSleep d => Some d | _ => None end) tr.

(** The state a 401 leaves behind. *)
Definition signed_out (st : Browser) : Browser :=
  set_location_href "/login" (localStorage_removeItem "user" st).

(** A response the loop answers with a wait and another attempt when one
    is left: a 429 or a 5xx. *)
Definition retryable (r : Response) : bool :=
  (status r =? 429)%nat || (500 <=? status r)%nat.

(** The wait that follows a retryable response on a given attempt. *)
Definition retry_wait (attempt : nat) (r : Response) : JS.number :=
  if (status r =? 429)%nat then APIClient.rate_limit_delay attempt r
  else JS.backoff attempt.

(** The trace of the attempts [a, a+1, ..., a+n-1] when each of them gets
    a retryable response and is not the last. *)
Fixpoint retry_trace (net : Network) (url : string) (cfg : RequestInit)
    (a n : nat) : list Event :=
  match n with
  | O => []
  | S n' =>
      match net a with
      | Resolved r => [EvFetch url cfg; EvSleep (retry_wait a r)]
      | Rejected _ => []
      end ++ retry_trace net url cfg (S a) n'
  end.

(** The error a call ends with when its last attempt gets a retryable
    response: the status line when the body does not parse, and otherwise
    one of two fixed texts, whatever the body says. *)
Definition exhausted_error (r : Response) : JS.Error :=
  match json r with
  | None => JS.new_Error (APIClient.http_message r)
  | Some _ =>
      if (status r =? 429)%nat
      then JS.new_Error "Too many requests. Please try again later."
      else JS.new_Error "Server error. Please try again later."
  end.

(** Whether a character occurs in a string. *)
Fixpoint occurs (c : ascii) (s : string) : bool :=
  match s with
  | EmptyString => false
  | String x rest => Ascii.eqb c x || occurs c rest
  end.

(** ** AuthProvider: mount, login and the role helpers *)

Module AuthContext.

(** The provider's React state next to the page it runs in: [user] is the
    [user] of the page, [loading] is kept here. *)
Record Provider := {
  page : Browser;
  loading : bool;
}.

(** The provider as first rendered: [useState(null)], [useState(true)]. *)
Definition initial (storage : gmap string string) (href : string) : Provider :=
  {| page := {| localStorage := storage; location_href := href; user := None |};
     loading := true |}.

Definition localStorage_setItem (key value : string) (st : Browser) : Browser :=
  {| localStorage := <[key := value]> (localStorage st);
     location_href := location_href st;
     user := user st |}.

(** What [authAPI.login] resolves to: [data_user] is [None] when the
    answer has no [user]. *)
Record LoginData := {
  two_factor_enabled : bool;
  user_id : nat;
  data_user : option User;
}.

(** How [login] ends. *)
Inductive LoginResult :=
| Requires2FA (userId : nat)
| LoginSuccess
| LoginThrow (e : JS.Error).

Section Effects.

(** [JSON.parse] on a stored user: it throws, or yields a user or
    [null]. *)
Variable JSON_parse : string → JS.Error + option User.

(** [JSON.stringify] on a user object. *)
Variable JSON_stringify : User → string.

(** [JSON.stringify(data.user)] as [setItem] stores it: an absent user is
    [undefined], which [setItem] turns into the text "undefined". *)
Definition stored_user (u : option User) : string :=
  match u with
  | Some u => JSON_stringify u
  | None => "undefined"
  end.

(** The effect run on mount. *)
Definition on_mount (p : Provider) : Provider * list Event :=
  let storedUser := localStorage (page p) !! "user" in
  let '(pg, ev) :=
    if JS.truthy storedUser
       && negb (String.eqb (default "" storedUser) "undefined")
    then
      match JSON_parse (default "" storedUser) with
      | inr u => (setUser u (page p), [EvSetUser u])
      | inl error =>
          (localStorage_removeItem "user" (page p),
           [EvConsoleError "Error parsing stored user:" error;
            EvRemoveItem "user"])
      end
    else (page p, []) in
  ({| page := pg; loading := false |}, ev).

(** [login(credentials)], given what [authAPI.login] yields: a thrown
    error on the left, the answer on the right. *)
Definition login (answer : JS.Error + LoginData) (st : Browser)
  : Browser * list Event * LoginResult :=
  match answer with
  | inl error => (st, [], LoginThrow error)
  | inr data =>
      if two_factor_enabled data then
        (localStorage_setItem "pending_2fa_user_id"
           (JS.to_string (user_id data)) st,
         [], Requires2FA (user_id data))
      else
        (setUser (data_user data)
           (localStorage_setItem "user" (stored_user (data_user data)) st),
         [EvSetUser (data_user data)], LoginSuccess)
  end.

(** A page reload: the provider starts afresh on the same storage and
    runs its mount effect. *)
Definition reload (st : Browser) : Provider * list Event :=
  on_mount (initial (localStorage st) (location_href st)).

End Effects.

(** [user?.role === 'Manager'] *)
Definition isManager (u : option User) : bool :=
  match u with
  | Some u => String.eqb (role u) "Manager"
  | None => false
  end.

(** [user?.role === 'Employee'] *)
Definition isEmployee (u : option User) : bool :=
  match u with
  | Some u => String.eqb (role u) "Employee"
  | None => false
  end.

Definition isAdmin : option User → bool := isManager.
Definition isStudent : option User → bool := isEmployee.

End AuthContext.

(** ** App: the dashboard router and the guarded routes *)

Module App.

Inductive Page :=
| ManagerDashboard
| EmployeeDashboard.

(** What a route shows. *)
Inductive View :=
| Loading
| Redirect (to : string)
| Show (p : Page).

Definition DashboardRouter (u : option User) : View :=
  match u with
  | None => Redirect "/login"
  | Some user =>
      if String.eqb (role user) "Manager" then Show ManagerDashboard
      else Show EmployeeDashboard
  end.

(** A [ProtectedRoute] around a child: the child is rendered only when
    the guard hands the children back. *)
Definition guarded (props : ProtectedRoute.Props) (auth : ProtectedRoute.Auth)
    (child : View) : View :=
  match ProtectedRoute.render props auth with
  | ProtectedRoute.LoadingDiv => Loading
  | ProtectedRoute.Navigate to _ => Redirect to
  | ProtectedRoute.Children => child
  end.

(** The element of the route [/dashboard]. *)
Definition dashboard_route (auth : ProtectedRoute.Auth) : View :=
  guarded ProtectedRoute.default_props auth
    (DashboardRouter (ProtectedRoute.auth_user auth)).

(** The element of the route [/manager]. *)
Definition manager_route (auth : ProtectedRoute.Auth) : View :=
  guarded {| ProtectedRoute.requireAdmin := false;
             ProtectedRoute.requireManager := true |} auth
    (Show ManagerDashboard).

End App.

(** ** ErrorBoundary *)

Module ErrorBoundary.

(** [errorInfo] is represented by its [componentStack]. *)
Record State := {
  hasError : bool;
  error : option JS.Error;
  errorInfo : option string;
}.

Definition initial : State :=
  {| hasError := false; error := None; errorInfo := None |}.

(** [getDerivedStateFromError] returns [{ hasError: true }], which React
    merges into the state. *)
Definition getDerivedStateFromError (s : State) : State :=
  {| hasError := true; error := error s; errorInfo := errorInfo s |}.

Definition componentDidCatch (e : JS.Error) (info : string) (s : State) : State :=
  {| hasError := hasError s; error := Some e; errorInfo := Some info |}.

Definition handleRetry (s : State) : State :=
  {| hasError := false; error := None; errorInfo := None |}.

(** What [render] gives: the children, the fallback screen with or
    without the details block, or a [TypeError] from reading
    [componentStack] of a null [errorInfo]. *)
Inductive Rendered :=
| RenderChildren
| Fallback (details : option (JS.Error * string))
| RenderThrows.

Definition render (dev : bool) (s : State) : Rendered :=
  if hasError s then
    match dev, error s with
    | true, Some e =>
        match errorInfo s with
        | Some stack => Fallback (Some (e, stack))
        | None => RenderThrows
        end
    | _, _ => Fallback None
    end
  else RenderChildren.

(** What can happen to a mounted boundary. *)
Inductive Lifecycle :=
| DerivedStateFromError
| DidCatch (e : JS.Error) (info : string)
| Retry.

Definition step (s : State) (l : Lifecycle) : State :=
  match l with
  | DerivedStateFromError => getDerivedStateFromError s
  | DidCatch e info => componentDidCatch e info s
  | Retry => handleRetry s
  end.

Definition after (ls : list Lifecycle) : State := foldl step initial ls.

End ErrorBoundary.

(** ** The service worker *)

Module ServiceWorker.

Definition STATIC_CACHE : string := "static-v1.0.0".
Definition DYNAMIC_CACHE : string := "dynamic-v1.0.0".
Definition STATIC_ASSETS : list string := ["/"; "/index.html"; "/manifest.json"].

Record Request := {
  url : string;
  request_method : string;
}.

(** A url without its fragment. *)
Fixpoint strip_fragment (s : string) : string :=
  match s with
  | EmptyString => EmptyString
  | String c rest =>
      if Ascii.eqb c "#" then EmptyString else String c (strip_fragment rest)
  end.

(** What a cache keys a request by: its url, the fragment left out. *)
Definition cache_key (req : Request) : string := strip_fragment (url req).

(** The cache storage of the origin: the named caches in the order they
    were created, each a map from the key of a GET request to the
    response stored for it. *)
Definition CacheStorage := list (string * gmap string Response).

(** [cache.match(request)]: a request that is not a GET matches nothing. *)
Definition cache_match (req : Request) (c : gmap string Response)
  : option Response :=
  if String.eqb (request_method req) "GET" then c !! cache_key req else None.

(** [caches.match(request)]: the first match in creation order. *)
Fixpoint caches_match (req : Request) (cs : CacheStorage) : option Response :=
  match cs with
  | [] => None
  | (_, c) :: rest =>
      match cache_match req c with
      | Some r => Some r
      | None => caches_match req rest
      end
  end.

Definition cache_names (cs : CacheStorage) : list string := cs.*1.

(** [caches.open(name)]: the cache is created, empty and last, when there
    is none of that name. *)
Definition caches_open (name : string) (cs : CacheStorage) : CacheStorage :=
  if bool_decide (name ∈ cache_names cs) then cs else cs ++ [(name, ∅)].

(** Whether [cache.put] takes the pair: its promise rejects for a request
    that is not a GET and for a response with status 206. (It also
    rejects a response whose Vary header is [*]; the response record
    carries no such header.) *)
Definition cache_accepts (req : Request) (r : Response) : bool :=
  String.eqb (request_method req) "GET" && negb (status r =? 206)%nat.

(** [cache.put(request, response)] on the cache of that name: nothing is
    stored when the promise rejects. *)
Definition cache_put (name : string) (req : Request) (r : Response)
    (cs : CacheStorage) : CacheStorage :=
  if cache_accepts req r then
    (λ entry, if String.eqb entry.1 name
              then (entry.1, <[cache_key req := r]> entry.2) else entry) <$> cs
  else cs.

(** [caches.delete(name)] *)
Definition caches_delete (name : string) (cs : CacheStorage) : CacheStorage :=
  filter (λ entry, entry.1 ≠ name) cs.

Inductive Handling :=
| NotHandled
| RespondWith (outcome : FetchOutcome).

(** The [fetch] listener. The write to the dynamic cache, which the
    source starts without waiting for it, is taken as done when the
    listener's result is looked at. *)
Definition on_fetch (origin : string) (net : Request → FetchOutcome)
    (req : Request) (cs : CacheStorage)
  : CacheStorage * list string * Handling :=
  if negb (String.prefix origin (url req)) then (cs, [], NotHandled)
  else if JS.includes (url req) "/api/" || JS.includes (url req) "/auth/"
  then (cs, [], NotHandled)
  else
    match caches_match req cs with
    | Some response => (cs, [], RespondWith (Resolved response))
    | None =>
        match net req with
        | Resolved response =>
            if negb (ok response)
            then (cs, [], RespondWith (Resolved response))
            else (cache_put DYNAMIC_CACHE req response
                    (caches_open DYNAMIC_CACHE cs),
                  [], RespondWith (Resolved response))
        | Rejected error =>
            (cs, ["[SW] Fetch failed, serving offline page if available"],
             RespondWith (Rejected error))
        end
    end.

(** The [activate] listener: every cache whose name is neither of the two
    current ones is deleted. *)
Definition on_activate (cs : CacheStorage) : CacheStorage :=
  foldr caches_delete cs
    (filter (λ cacheName, cacheName ≠ STATIC_CACHE ∧ cacheName ≠ DYNAMIC_CACHE)
       (cache_names cs)).

End ServiceWorker.

(** ** More concrete inputs *)

Module Samples.

Import Fixtures.

Definition jane : User := {| user_name := "Jane"; role := "Employee" |}.

Definition root : User := {| user_name := "Root"; role := "Admin" |}.

(** A stand-in for the serialisation of a user and for its parsing. *)
Definition stringify (u : User) : string := user_name u +:+ ":" +:+ role u.

Definition syntax_error : JS.Error :=
  {| JS.name := "SyntaxError"; JS.message := "Unexpected token";
     JS.code := None |}.

Definition parse (s : string) : JS.Error + option User :=
  if String.eqb s (stringify jane) then inr (Some jane) else inl syntax_error.

Definition ok_response : Response := response 200 "OK" None (Some payload).

Definition bad_request : Response := response 400 "Bad Request" None None.

(** Two server errors, then an ok response. *)
Definition flaky : Network :=
  λ n, if (n <? 3)%nat then Resolved server_down else Resolved ok_response.

Definition origin : string := "https://tracker.example".

Definition tasks_request : ServiceWorker.Request :=
  {| ServiceWorker.url := "https://tracker.example/projects/1/tasks";
     ServiceWorker.request_method := "GET" |}.

Definition logout_request : ServiceWorker.Request :=
  {| ServiceWorker.url := "https://tracker.example/auth/logout";
     ServiceWorker.request_method := "POST" |}.

(** A GET under /auth/ on the worker's own origin. *)
Definition session_request : ServiceWorker.Request :=
  {| ServiceWorker.url := "https://tracker.example/auth/session";
     ServiceWorker.request_method := "GET" |}.

Definition online : ServiceWorker.Request → FetchOutcome :=
  λ _, Resolved ok_response.

Definition offline : ServiceWorker.Request → FetchOutcome :=
  λ _, Rejected failed_to_fetch.

Definition old_caches : ServiceWorker.CacheStorage :=
  [("static-v0.9.0", {[ "https://tracker.example/" := ok_response ]});
   (ServiceWorker.STATIC_CACHE, ∅)].

(** The dynamic cache holding the answer to the tasks request. *)
Definition warm_caches : ServiceWorker.CacheStorage :=
  [(ServiceWorker.DYNAMIC_CACHE,
    {[ ServiceWorker.cache_key tasks_request := ok_response ]})].

End Samples.

(** * Properties of the request loop *)

Section RequestLoop.

Import APIClient.

Variable net : Network.
Variable url : string.
Variable cfg : RequestInit.
Variable retries : nat.

Lemma count_app p tr1 tr2 : count p (tr1 ++ tr2) = count p tr1 + count p tr2.
Proof. unfold count. by rewrite filter_app, length_app. Qed.

Lemma count_cons p e tr :
  count p (e :: tr) = (if p e then 1 else 0) + count p tr.
Proof.
  unfold count. rewrite filter_cons.
  destruct (p e); case_decide; simpl; congruence.
Qed.

Lemma fetched_app tr1 tr2 : fetched (tr1 ++ tr2) = fetched tr1 ++ fetched tr2.
Proof. unfold fetched. apply omap_app. Qed.

Lemma parse_and_check_done response :
  ∃ c, parse_and_check response = Done c ∧ settles c.
Proof.
  unfold parse_and_check, throw_message, settles.
  repeat case_match; eauto 6.
Qed.

(** The [try] block performs no [fetch] of its own and continues only
    below the bound. *)
Lemma try_block_spec attempt outcome st st1 ev flow :
  try_block attempt retries outcome st = (st1, ev, flow) →
  count is_fetch ev = 0 ∧ fetched ev = [] ∧
  match flow with
  | Continue => attempt < retries
  | Done c => settles c
  end.
Proof.
  unfold try_block, server_error_check, settles.
  destruct outcome as [e|response].
  - intros [= <- <- <-]. eauto.
  - destruct (parse_and_check_done response) as (c & Hc & Hs).
    rewrite Hc.
    repeat case_match; intros ?; simplify_eq;
      (split; [done|split; [done|]]); try done; eauto;
      repeat match goal with
        | H : (_ && _) = true |- _ => apply andb_true_iff in H as [? ?]
        | H : (_ <? _)%nat = true |- _ => apply Nat.ltb_lt in H
        end; done.
Qed.

Lemma catch_block_spec attempt error ev flow :
  catch_block attempt retries error = (ev, flow) →
  count is_fetch ev = 0 ∧ fetched ev = [] ∧
  match flow with
  | Continue => attempt < retries
  | Done c => settles c
  end.
Proof.
  unfold catch_block, settles.
  repeat case_match; intros ?; simplify_eq;
    (split; [done|split; [done|]]); try done; eauto.
  by apply Nat.ltb_lt.
Qed.

(** Each iteration calls [fetch] exactly once; it goes round again only
    when another attempt is left, and otherwise settles. *)
Lemma iteration_spec attempt st st1 ev flow :
  iteration net url cfg attempt retries st = (st1, ev, flow) →
  count is_fetch ev = 1 ∧ fetched ev = [(url, cfg)] ∧
  match flow with
  | Continue => attempt < retries
  | Done c => settles c
  end.
Proof.
  unfold iteration.
  destruct (try_block attempt retries (net attempt) st) as [[st' ev1] fl] eqn:Ht.
  apply try_block_spec in Ht as (Hn & Hq & Hf).
  assert (∀ ev', fetched (EvFetch url cfg :: ev') = (url, cfg) :: fetched ev')
    as Hcons by done.
  destruct fl as [|[d| |e]].
  - intros [= <- <- <-]. by rewrite count_cons, Hn, Hcons, Hq.
  - intros [= <- <- <-]. by rewrite count_cons, Hn, Hcons, Hq.
  - intros [= <- <- <-]. by rewrite count_cons, Hn, Hcons, Hq.
  - destruct (catch_block attempt retries e) as [ev2 fl2] eqn:Hc.
    apply catch_block_spec in Hc as (Hn2 & Hq2 & Hf2).
    intros [= <- <- <-].
    by rewrite count_cons, count_app, Hn, Hn2, Hcons, fetched_app, Hq, Hq2.
Qed.

(** Enough fuel always gives a result. *)
Lemma request_loop_total fuel attempt st :
  retries + 1 ≤ fuel + attempt →
  is_Some (request_loop net url cfg retries fuel attempt st).
Proof.
  revert attempt st.
  induction fuel as [|fuel IH]; intros attempt st Hfuel; simpl.
  - destruct (attempt <=? retries)%nat eqn:Hle; [|eauto].
    apply Nat.leb_le in Hle. lia.
  - destruct (attempt <=? retries)%nat eqn:Hle; [|eauto].
    destruct (iteration net url cfg attempt retries st) as [[st1 ev1] flow].
    destruct flow as [|c]; [|eauto].
    destruct (IH (S attempt) st1) as [[[st2 ev2] c] ->]; [lia|eauto].
Qed.

(** The loop calls [fetch] at most once per remaining attempt. *)
Lemma request_loop_fetch_bound fuel attempt st st' tr c :
  request_loop net url cfg retries fuel attempt st = Some (st', tr, c) →
  count is_fetch tr ≤ retries + 1 - attempt.
Proof.
  revert attempt st st' tr c.
  induction fuel as [|fuel IH]; intros attempt st st' tr c; simpl.
  - destruct (attempt <=? retries)%nat; [done|].
    intros [= <- <- <-]. unfold count. simpl. lia.
  - destruct (attempt <=? retries)%nat eqn:Hle.
    + apply Nat.leb_le in Hle.
      destruct (iteration net url cfg attempt retries st)
        as [[st1 ev1] flow] eqn:Hit.
      apply iteration_spec in Hit as (Hn & _ & Hf).
      destruct flow as [|c1].
      * destruct (request_loop net url cfg retries fuel (S attempt) st1)
          as [[[st2 ev2] c2]|] eqn:Hrec; [|done].
        apply IH in Hrec.
        intros [= <- <- <-]. rewrite count_app. lia.
      * intros [= <- <- <-]. lia.
    + intros [= <- <- <-]. unfold count. simpl. lia.
Qed.

(** Once inside the bound, the loop ends by returning a payload or by
    throwing, never by falling off its end. *)
Lemma request_loop_settles fuel attempt st st' tr c :
  attempt ≤ retries →
  request_loop net url cfg retries fuel attempt st = Some (st', tr, c) →
  settles c.
Proof.
  revert attempt st st' tr c.
  induction fuel as [|fuel IH]; intros attempt st st' tr c Hle; simpl.
  - apply Nat.leb_le in Hle as ->. done.
  - pose proof Hle as Hle'. apply Nat.leb_le in Hle' as ->.
    destruct (iteration net url cfg attempt retries st)
      as [[st1 ev1] flow] eqn:Hit.
    apply iteration_spec in Hit as (Hn & _ & Hf).
    destruct flow as [|c1].
    + destruct (request_loop net url cfg retries fuel (S attempt) st1)
        as [[[st2 ev2] c2]|] eqn:Hrec; [|done].
      intros [= <- <- <-]. eapply IH; [|exact Hrec]. lia.
    + by intros [= <- <- <-].
Qed.

(** Every [fetch] of the loop is given the same url and the same config,
    and inside the bound there is at least one. *)
Lemma request_loop_fetched fuel attempt st st' tr c :
  request_loop net url cfg retries fuel attempt st = Some (st', tr, c) →
  ∃ n, fetched tr = replicate n (url, cfg) ∧ (attempt ≤ retries → 0 < n).
Proof.
  revert attempt st st' tr c.
  induction fuel as [|fuel IH]; intros attempt st st' tr c; simpl.
  - destruct (attempt <=? retries)%nat eqn:Hle; [done|].
    apply Nat.leb_gt in Hle.
    intros [= <- <- <-]. exists 0. split; [done|lia].
  - destruct (attempt <=? retries)%nat eqn:Hle.
    + destruct (iteration net url cfg attempt retries st)
        as [[st1 ev1] flow] eqn:Hit.
      apply iteration_spec in Hit as (_ & Hq & _).
      destruct flow as [|c1].
      * destruct (request_loop net url cfg retries fuel (S attempt) st1)
          as [[[st2 ev2] c2]|] eqn:Hrec; [|done].
        apply IH in Hrec as (n & Hn & _).
        intros [= <- <- <-]. exists (S n).
        rewrite fetched_app, Hq, Hn. split; [done|lia].
      * intros [= <- <- <-]. exists 1. rewrite Hq. split; [done|lia].
    + apply Nat.leb_gt in Hle.
      intros [= <- <- <-]. exists 0. split; [done|lia].
Qed.

End RequestLoop.

(** * Reading numerals *)

Section Numerals.

Lemma parse_digits_decimal d (a : Z) :
  (0 ≤ a)%Z →
  JS.parse_digits 10 (NilEmpty.string_of_uint d) (Some a)
  = Some (Z.of_nat (Nat.of_uint_acc d (Z.to_nat a))).
Proof.
  revert a. induction d; intros a Ha;
    cbn [NilEmpty.string_of_uint JS.parse_digits Nat.of_uint_acc].
  1: { by rewrite Z2Nat.id. }
  all: lazymatch goal with
       | |- context [JS.digit_value ?c] =>
           let v := eval vm_compute in (JS.digit_value c) in
           change (JS.digit_value c) with v
       end;
    cbv beta iota;
    lazymatch goal with
    | |- context [(?k <? 10)%Z] => change (k <? 10)%Z with true
    end;
    cbn [from_option id]; rewrite IHd by lia; do 3 f_equal;
    rewrite ?Nat.tail_mul_spec; lia.
Qed.

(** A numeral behind a fixed prefix [s] that [parseInt] reads as the
    digits worth [k]. *)
Lemma parseInt_prefixed (s : string → string) (k : Z) d :
  (∀ r, JS.parseInt (s r)
        = match JS.parse_digits 10 r (Some k) with
          | Some z => JS.Num (1 * z)
          | None => JS.NaN
          end) →
  (0 ≤ k)%Z →
  JS.parseInt (s (NilEmpty.string_of_uint d))
  = JS.Num (Z.of_nat (Nat.of_uint_acc d (Z.to_nat k))).
Proof. intros Hs Hk. by rewrite Hs, parse_digits_decimal, Z.mul_1_l. Qed.

Local Ltac by_prefix s k d :=
  apply (parseInt_prefixed s k d); [intros ?; reflexivity | lia].

Lemma parseInt_uint d :
  JS.parseInt (NilZero.string_of_uint d) = JS.Num (Z.of_nat (Nat.of_uint d)).
Proof.
  unfold Nat.of_uint.
  destruct d as [|d|d|d|d|d|d|d|d|d|d];
    [ reflexivity | |
      by_prefix (String "1") 1%Z d | by_prefix (String "2") 2%Z d |
      by_prefix (String "3") 3%Z d | by_prefix (String "4") 4%Z d |
      by_prefix (String "5") 5%Z d | by_prefix (String "6") 6%Z d |
      by_prefix (String "7") 7%Z d | by_prefix (String "8") 8%Z d |
      by_prefix (String "9") 9%Z d ].
  destruct d as [|d|d|d|d|d|d|d|d|d|d];
    [ reflexivity |
      by_prefix (λ r, String "0" (String "0" r)) 0%Z d |
      by_prefix (λ r, String "0" (String "1" r)) 1%Z d |
      by_prefix (λ r, String "0" (String "2" r)) 2%Z d |
      by_prefix (λ r, String "0" (String "3" r)) 3%Z d |
      by_prefix (λ r, String "0" (String "4" r)) 4%Z d |
      by_prefix (λ r, String "0" (String "5" r)) 5%Z d |
      by_prefix (λ r, String "0" (String "6" r)) 6%Z d |
      by_prefix (λ r, String "0" (String "7" r)) 7%Z d |
      by_prefix (λ r, String "0" (String "8" r)) 8%Z d |
      by_prefix (λ r, String "0" (String "9" r)) 9%Z d ].
Qed.

(** [parseInt] reads the decimal text of a number back as that number. *)
Lemma parseInt_to_string n : JS.parseInt (JS.to_string n) = JS.Num (Z.of_nat n).
Proof.
  unfold JS.to_string. by rewrite parseInt_uint, DecimalNat.Unsigned.of_to.
Qed.

Lemma to_string_nonempty n : JS.to_string n ≠ "".
Proof.
  intros Hn. pose proof (parseInt_to_string n) as Hp.
  rewrite Hn in Hp. discriminate.
Qed.

(** A Retry-After header that is the decimal text of [n] seconds gives a
    delay of [n * 1000] ms. *)
Lemma rate_limit_delay_seconds attempt r n :
  retryAfter r = Some (JS.to_string n) →
  APIClient.rate_limit_delay attempt r = JS.Num (Z.of_nat n * 1000).
Proof.
  intros Hr. unfold APIClient.rate_limit_delay. rewrite Hr.
  assert (JS.truthy (Some (JS.to_string n)) = true) as ->.
  { simpl. destruct (String.eqb_spec (JS.to_string n) ""); [|done].
    by destruct (to_string_nonempty n). }
  cbn [from_option id]. by rewrite parseInt_to_string.
Qed.

End Numerals.

(** * One attempt, case by case *)

Section Attempt.

Import APIClient.

Variable net : Network.
Variable url : string.
Variable cfg : RequestInit.
Variable retries : nat.

Lemma backoff_value attempt :
  JS.backoff attempt = JS.Num (2 ^ Z.of_nat attempt * 1000).
Proof. reflexivity. Qed.


Lemma truthy_Some s : s ≠ "" → JS.truthy (Some s) = true.
Proof.
  intros Hs. simpl. destruct (String.eqb_spec s ""); [done|reflexivity].
Qed.

(** A 429 below the bound: sleep for the rate-limit delay, go round. *)
Lemma iteration_rate_limited attempt st r :
  net attempt = Resolved r → status r = 429 → attempt < retries →
  iteration net url cfg attempt retries st =
    (st, [EvFetch url cfg; EvSleep (rate_limit_delay attempt r)], Continue).
Proof.
  intros Hnet Hs Hlt. unfold iteration, try_block. rewrite Hnet, Hs. simpl.
  apply Nat.ltb_lt in Hlt as ->. reflexivity.
Qed.

(** A 5xx below the bound: sleep for the exponential delay, go round. *)
Lemma iteration_server_error attempt st r :
  net attempt = Resolved r → 500 ≤ status r → attempt < retries →
  iteration net url cfg attempt retries st =
    (st, [EvFetch url cfg; EvSleep (JS.backoff attempt)], Continue).
Proof.
  intros Hnet Hs Hlt. unfold iteration, try_block, server_error_check.
  rewrite Hnet.
  destruct (status r =? 401)%nat eqn:H401; [apply Nat.eqb_eq in H401; lia|].
  destruct (status r =? 429)%nat eqn:H429; [apply Nat.eqb_eq in H429; lia|].
  apply Nat.leb_le in Hs as ->. apply Nat.ltb_lt in Hlt as ->. reflexivity.
Qed.

(** What the [catch] block does with an error that is not a [TypeError]
    about fetch. *)
Lemma catch_block_plain attempt error :
  String.eqb (JS.name error) "TypeError"
    && JS.includes (JS.message error) "fetch" = false →
  attempt ≤ retries →
  catch_block attempt retries error =
    if (attempt =? retries)%nat || client_error_message (JS.message error)
    then ([EvConsoleError "API Error:" error], Done (Throw error))
    else ([EvSleep (JS.backoff attempt)], Continue).
Proof.
  intros Hn Hle. unfold catch_block. rewrite Hn.
  destruct (attempt =? retries)%nat eqn:Heq; simpl; [done|].
  destruct (client_error_message (JS.message error)); [done|].
  apply Nat.eqb_neq in Heq.
  assert (attempt < retries) as Hlt by lia.
  apply Nat.ltb_lt in Hlt as ->. reflexivity.
Qed.

(** A rejected [fetch] goes straight to the [catch] block. *)
Lemma iteration_rejected attempt st e :
  net attempt = Rejected e →
  iteration net url cfg attempt retries st =
    (st, EvFetch url cfg :: (catch_block attempt retries e).1,
     (catch_block attempt retries e).2).
Proof.
  intros Hnet. unfold iteration, try_block. rewrite Hnet.
  by destruct (catch_block attempt retries e).
Qed.

(** A 401: the stored user is removed, the location set, and the error
    thrown in the [try] block reaches the [catch] block. *)
Lemma iteration_unauthorized attempt st r :
  net attempt = Resolved r → status r = 401 → attempt ≤ retries →
  iteration net url cfg attempt retries st =
    (set_location_href "/login" (localStorage_removeItem "user" st),
     [EvFetch url cfg; EvRemoveItem "user"; EvNavigate "/login";
      if (attempt <? retries)%nat then EvSleep (JS.backoff attempt)
      else EvConsoleError "API Error:" (JS.new_Error "Unauthorized")],
     if (attempt <? retries)%nat then Continue
     else Done (Throw (JS.new_Error "Unauthorized"))).
Proof.
  intros Hnet Hs Hle. unfold iteration, try_block. rewrite Hnet, Hs. simpl.
  rewrite (catch_block_plain attempt (JS.new_Error "Unauthorized")) by done.
  change (client_error_message (JS.message (JS.new_Error "Unauthorized")))
    with false.
  rewrite orb_false_r.
  destruct (attempt =? retries)%nat eqn:Heq.
  - apply Nat.eqb_eq in Heq as ->. by rewrite Nat.ltb_irrefl.
  - apply Nat.eqb_neq in Heq.
    assert (attempt < retries) as Hlt by lia.
    apply Nat.ltb_lt in Hlt as ->. reflexivity.
Qed.

Lemma try_block_reaches_parse attempt st r :
  reaches_parse attempt retries r →
  try_block attempt retries (Resolved r) st = (st, [], parse_and_check r).
Proof.
  intros [H401 Hretry]. unfold try_block, server_error_check.
  apply Nat.eqb_neq in H401 as ->.
  destruct (attempt <? retries)%nat eqn:Hlt.
  - apply Nat.ltb_lt in Hlt. destruct (Hretry Hlt) as [H429 H500].
    apply Nat.eqb_neq in H429 as ->.
    assert ((500 <=? status r)%nat = false) as -> by (apply Nat.leb_gt; lia).
    reflexivity.
  - rewrite andb_false_r. by destruct (status r =? 429)%nat.
Qed.

(** A body that does not parse: the error carries the status line, and
    the [catch] block decides by the attempt number and that text. *)
Lemma iteration_malformed attempt st r :
  net attempt = Resolved r → json r = None → attempt ≤ retries →
  reaches_parse attempt retries r →
  iteration net url cfg attempt retries st =
    if (attempt =? retries)%nat || client_error_message (http_message r)
    then (st, [EvFetch url cfg;
               EvConsoleError "API Error:" (JS.new_Error (http_message r))],
          Done (Throw (JS.new_Error (http_message r))))
    else (st, [EvFetch url cfg; EvSleep (JS.backoff attempt)], Continue).
Proof.
  intros Hnet Hj Hle Hp. unfold iteration. rewrite Hnet.
  rewrite (try_block_reaches_parse _ _ _ Hp).
  unfold parse_and_check. rewrite Hj.
  rewrite (catch_block_plain attempt (JS.new_Error (http_message r))) by done.
  simpl.
  by destruct ((attempt =? retries)%nat || client_error_message (http_message r)).
Qed.

Lemma throw_message_not_null d fallback :
  content d ≠ JNull →
  throw_message d fallback
  = Done (Throw (JS.new_Error (message_or d fallback))).
Proof. unfold throw_message. by destruct (content d). Qed.

(** A 4xx other than 401 and 429 whose parsed body, not [null], carries
    a message: the error's text is that message, and the [catch] block
    decides by the attempt number and that text. *)
Lemma iteration_client_error attempt st r d m :
  net attempt = Resolved r → json r = Some d → content d ≠ JNull →
  400 ≤ status r < 500 → status r ≠ 401 → status r ≠ 429 →
  data_message d = Some m → m ≠ "" → attempt ≤ retries →
  iteration net url cfg attempt retries st =
    if (attempt =? retries)%nat || client_error_message m
    then (st, [EvFetch url cfg; EvConsoleError "API Error:" (JS.new_Error m)],
          Done (Throw (JS.new_Error m)))
    else (st, [EvFetch url cfg; EvSleep (JS.backoff attempt)], Continue).
Proof.
  intros Hnet Hj Hnn Hs H401 H429 Hm Hne Hle. unfold iteration. rewrite Hnet.
  rewrite try_block_reaches_parse by (split; [done|intros _; split; [done|lia]]).
  unfold parse_and_check, ok. rewrite Hj, !throw_message_not_null by done.
  unfold message_or. rewrite Hm, truthy_Some by done.
  assert ((status r <=? 299)%nat = false) as -> by (apply Nat.leb_gt; lia).
  rewrite andb_false_r.
  apply Nat.eqb_neq in H401 as ->. apply Nat.eqb_neq in H429 as ->.
  assert ((500 <=? status r)%nat = false) as -> by (apply Nat.leb_gt; lia).
  cbn [negb from_option id].
  rewrite (catch_block_plain attempt (JS.new_Error m)) by done.
  cbn [JS.message JS.new_Error].
  by destruct ((attempt =? retries)%nat || client_error_message m).
Qed.

(** The loop after an iteration that goes round again. *)
Lemma request_loop_continue fuel attempt st st1 ev :
  attempt ≤ retries →
  iteration net url cfg attempt retries st = (st1, ev, Continue) →
  request_loop net url cfg retries (S fuel) attempt st =
    match request_loop net url cfg retries fuel (S attempt) st1 with
    | Some (st2, ev2, c) => Some (st2, ev ++ ev2, c)
    | None => None
    end.
Proof.
  intros Hle Hit. simpl. apply Nat.leb_le in Hle as ->. by rewrite Hit.
Qed.

Lemma request_loop_done fuel attempt st st1 ev c :
  attempt ≤ retries →
  iteration net url cfg attempt retries st = (st1, ev, Done c) →
  request_loop net url cfg retries (S fuel) attempt st = Some (st1, ev, c).
Proof.
  intros Hle Hit. simpl. apply Nat.leb_le in Hle as ->. by rewrite Hit.
Qed.

End Attempt.

(** * The API client's retry contract *)

Section Client.

Import APIClient.

Variable baseURL : string.
Variable net : Network.
Variable endpoint : string.
Variable options : RequestInit.

(** With any positive bound the call never runs out of fuel, calls
    [fetch] at most [retries] times, and settles. *)
Lemma request_bounded retries st :
  0 < retries →
  ∃ st' tr c,
    request baseURL net endpoint options retries st = Some (st', tr, c)
    ∧ count is_fetch tr ≤ retries ∧ settles c.
Proof.
  intros Hpos. unfold request.
  destruct (request_loop_total net (baseURL +:+ endpoint) (config options)
              retries retries 1 st) as [[[st' tr] c] Hr]; [lia|].
  exists st', tr, c. split; [done|]. split.
  - apply request_loop_fetch_bound in Hr. lia.
  - eapply request_loop_settles; [|exact Hr]. lia.
Qed.

(** C1: with the client's bound of 3, whatever the endpoint, the request
    configuration and the responses (5xx and 429 included), a call of
    [request] terminates, has called [fetch] at most 3 times, and ends
    either by returning a payload or by throwing. *)
Theorem request_at_most_three_attempts st :
  ∃ st' tr c,
    request baseURL net endpoint options default_retries st = Some (st', tr, c)
    ∧ count is_fetch tr ≤ 3 ∧ settles c.
Proof. apply request_bounded. unfold default_retries. lia. Qed.

Lemma parse_and_check_retryable r :
  status r = 429 ∨ 500 ≤ status r →
  ∃ m, parse_and_check r = Done (Throw (JS.new_Error m)).
Proof.
  intros Hs. unfold parse_and_check, ok.
  destruct (json r) as [d|]; [|eauto].
  assert ((status r <=? 299)%nat = false) as -> by (apply Nat.leb_gt; lia).
  rewrite andb_false_r. cbn [negb].
  assert ((status r =? 401)%nat = false) as -> by (apply Nat.eqb_neq; lia).
  destruct (status r =? 429)%nat eqn:H429; [eauto|].
  apply Nat.eqb_neq in H429.
  assert ((500 <=? status r)%nat = true) as -> by (apply Nat.leb_le; lia).
  eauto.
Qed.

(** The last attempt on a 429 or a 5xx throws. *)
Lemma iteration_last_retryable retries st r :
  net retries = Resolved r → status r = 429 ∨ 500 ≤ status r →
  ∃ e, iteration net (baseURL +:+ endpoint) (config options) retries retries st =
         (st, [EvFetch (baseURL +:+ endpoint) (config options);
               EvConsoleError "API Error:" e], Done (Throw e)).
Proof.
  intros Hnet Hs.
  destruct (parse_and_check_retryable r Hs) as [m Hm].
  exists (JS.new_Error m). unfold iteration. rewrite Hnet.
  rewrite try_block_reaches_parse by (split; lia).
  rewrite Hm, catch_block_plain by done.
  by rewrite Nat.eqb_refl.
Qed.

(** When every response is a 5xx or a 429 the bound is reached: exactly
    three attempts, two waits, then the error is thrown. *)
Lemma request_retryable_exhausts st :
  (∀ n, ∃ r, net n = Resolved r ∧ (status r = 429 ∨ 500 ≤ status r)) →
  ∃ tr e,
    request baseURL net endpoint options default_retries st = Some (st, tr, Throw e)
    ∧ count is_fetch tr = 3 ∧ count is_sleep tr = 2.
Proof.
  intros Hall. unfold request, default_retries.
  assert (∀ n, n < 3 → ∃ d,
            iteration net (baseURL +:+ endpoint) (config options) n 3 st =
              (st, [EvFetch (baseURL +:+ endpoint) (config options); EvSleep d],
               Continue)) as Hstep.
  { intros n Hn. destruct (Hall n) as (r & Hr & [H429|H5]).
    - eexists. by eapply iteration_rate_limited.
    - eexists. by eapply iteration_server_error. }
  destruct (Hstep 1) as [d1 H1]; [lia|].
  destruct (Hstep 2) as [d2 H2]; [lia|].
  destruct (Hall 3) as (r3 & Hr3 & Hs3).
  destruct (iteration_last_retryable 3 st r3 Hr3 Hs3) as [e H3].
  rewrite (request_loop_continue _ _ _ 3 2 1 st st _ ltac:(lia) H1).
  rewrite (request_loop_continue _ _ _ 3 1 2 st st _ ltac:(lia) H2).
  rewrite (request_loop_done _ _ _ 3 0 3 st st _ _ ltac:(lia) H3).
  eexists _, e. split; [reflexivity|]. split; reflexivity.
Qed.


(** What the [catch] block does with a rejected [fetch]: an error that
    is a [TypeError] mentioning fetch is classified as a connectivity failure
    (code [NETWORK_ERROR]) and thrown on that very attempt, with no wait
    and no retry. Any other rejection is left unclassified: when its
    message does not match the client-error test it is retried after
    [2 ^ attempt * 1000] ms like a 5xx while attempts remain, and on the
    last attempt it is thrown as it is. *)
Theorem fetch_rejection attempt retries st e :
  net attempt = Rejected e → attempt ≤ retries →
  (String.eqb (JS.name e) "TypeError" && JS.includes (JS.message e) "fetch" = true →
     iteration net (baseURL +:+ endpoint) (config options) attempt retries st =
       (st, [EvFetch (baseURL +:+ endpoint) (config options)],
        Done (Throw networkError)))
  ∧ (String.eqb (JS.name e) "TypeError" && JS.includes (JS.message e) "fetch" = false →
     client_error_message (JS.message e) = false → attempt < retries →
     iteration net (baseURL +:+ endpoint) (config options) attempt retries st =
       (st, [EvFetch (baseURL +:+ endpoint) (config options);
             EvSleep (JS.Num (2 ^ Z.of_nat attempt * 1000))], Continue))
  ∧ (String.eqb (JS.name e) "TypeError" && JS.includes (JS.message e) "fetch" = false →
     attempt = retries →
     iteration net (baseURL +:+ endpoint) (config options) attempt retries st =
       (st, [EvFetch (baseURL +:+ endpoint) (config options);
             EvConsoleError "API Error:" e], Done (Throw e))).
Proof.
  intros Hnet Hle. rewrite (iteration_rejected _ _ _ _ _ _ _ Hnet).
  repeat split.
  - intros Hn. unfold catch_block. by rewrite Hn.
  - intros Hn Hc Hlt. rewrite catch_block_plain, Hc by done.
    assert ((attempt =? retries)%nat = false) as -> by (apply Nat.eqb_neq; lia).
    reflexivity.
  - intros Hn ->. rewrite catch_block_plain by done.
    by rewrite Nat.eqb_refl.
Qed.

(** C5, as the code has it: an attempt that receives a 401 removes the
    stored user, sets the location to /login (each once on that attempt)
    and throws "Unauthorized"; the call ends there only on the last
    attempt, and on an earlier attempt it waits [2 ^ attempt * 1000] ms and
    goes round again. *)
Theorem unauthorized_attempt attempt retries st r :
  net attempt = Resolved r → status r = 401 → attempt ≤ retries →
  iteration net (baseURL +:+ endpoint) (config options) attempt retries st =
    (set_location_href "/login" (localStorage_removeItem "user" st),
     [EvFetch (baseURL +:+ endpoint) (config options);
      EvRemoveItem "user"; EvNavigate "/login";
      if (attempt <? retries)%nat
      then EvSleep (JS.Num (2 ^ Z.of_nat attempt * 1000))
      else EvConsoleError "API Error:" (JS.new_Error "Unauthorized")],
     if (attempt <? retries)%nat then Continue
     else Done (Throw (JS.new_Error "Unauthorized"))).
Proof. apply iteration_unauthorized. Qed.

(** C6, as the code has it: when the body of a response that reaches the
    parsing step does not parse, the error is a plain [Error] whose text is
    the status line, the very error raised for a 4xx whose parsed body,
    other than [null], carries no message; it is thrown at once only on
    the last attempt or when the status line passes the client-error
    test, and otherwise the call waits [2 ^ attempt * 1000] ms and goes
    round again. *)
Theorem malformed_body attempt retries st r :
  net attempt = Resolved r → json r = None → attempt ≤ retries →
  reaches_parse attempt retries r →
  iteration net (baseURL +:+ endpoint) (config options) attempt retries st =
    (if (attempt =? retries)%nat || client_error_message (http_message r)
     then (st, [EvFetch (baseURL +:+ endpoint) (config options);
                EvConsoleError "API Error:" (JS.new_Error (http_message r))],
           Done (Throw (JS.new_Error (http_message r))))
     else (st, [EvFetch (baseURL +:+ endpoint) (config options);
                EvSleep (JS.Num (2 ^ Z.of_nat attempt * 1000))], Continue))
  ∧ (∀ d, data_message d = None → content d ≠ JNull →
       400 ≤ status r < 500 → status r ≠ 429 →
       parse_and_check
         {| status := status r; statusText := statusText r;
            retryAfter := retryAfter r; json := Some d |}
       = parse_and_check r).
Proof.
  intros Hnet Hj Hle Hp. split.
  - by apply iteration_malformed.
  - intros d Hd Hnn Hs H429. destruct Hp as [H401 _].
    unfold parse_and_check, ok. rewrite Hj. cbn [json status statusText].
    rewrite !throw_message_not_null by done.
    unfold message_or, http_message. cbn [json status statusText].
    rewrite Hd.
    assert ((status r <=? 299)%nat = false) as -> by (apply Nat.leb_gt; lia).
    rewrite andb_false_r.
    apply Nat.eqb_neq in H401 as ->. apply Nat.eqb_neq in H429 as ->.
    assert ((500 <=? status r)%nat = false) as -> by (apply Nat.leb_gt; lia).
    reflexivity.
Qed.

End Client.

(** * What the public methods send *)

Section Methods.

Import APIClient.

Lemma public_config m b :
  credentials (config (options_of m b)) = Some "include"
  ∧ headers (config (options_of m b)) = getAuthHeaders
  ∧ headers (config (options_of m b)) !! "Authorization" = None
  ∧ body (config (options_of m b)) = JSON_stringify <$> b.
Proof.
  unfold config, options_of. cbn [credentials headers body].
  rewrite (left_id_L ∅ (∪)). repeat split.
Qed.

Lemma call_unfold baseURL net endpoint c st :
  ∃ m, call baseURL net endpoint c st =
         request baseURL net endpoint (options_of m (caller_body c))
           default_retries st.
Proof. destruct c; simpl; eauto. Qed.

Lemma body_has_field_stringify k (b : option JSON) :
  body_has_field k (JSON_stringify <$> b) = from_option (has_field k) false b.
Proof. by destruct b. Qed.

(** C7, as the code has it: every call of get, post, put, patch or delete
    reaches [fetch] at least once, and each time with
    [credentials: 'include'], with exactly the headers of
    [getAuthHeaders] (so no Authorization header), and with a body that is
    absent for get and delete and otherwise the caller's argument
    serialised as it is: the client puts no field of its own into it, so
    the body carries a [token] field only when the caller's argument
    does. *)
Theorem requests_carry_cookie_only baseURL net endpoint (c : Call) st :
  fetched (trace_of (call baseURL net endpoint c st)) ≠ []
  ∧ Forall (λ sent,
      credentials sent.2 = Some "include"
      ∧ headers sent.2 = getAuthHeaders
      ∧ headers sent.2 !! "Authorization" = None
      ∧ body sent.2 = JSON_stringify <$> caller_body c
      ∧ (caller_body c = None → body sent.2 = None)
      ∧ (body_has_field "token" (body sent.2) = true →
         ∃ b, caller_body c = Some b ∧ has_field "token" b = true))
    (fetched (trace_of (call baseURL net endpoint c st))).
Proof.
  destruct (call_unfold baseURL net endpoint c st) as [m ->].
  unfold request, default_retries.
  destruct (request_loop_total net (baseURL +:+ endpoint)
              (config (options_of m (caller_body c))) 3 3 1 st)
    as [[[st' tr] cpl] Hr]; [lia|].
  rewrite Hr. cbn [trace_of].
  apply request_loop_fetched in Hr as (n & -> & Hn).
  specialize (Hn ltac:(lia)).
  split.
  - destruct n; [lia|done].
  - apply Forall_replicate. cbn [snd].
    destruct (public_config m (caller_body c)) as (Hc & Hh & Ha & Hb).
    repeat split; try done.
    + intros Hnone. by rewrite Hb, Hnone.
    + rewrite Hb, body_has_field_stringify.
      destruct (caller_body c) as [b|]; [eauto|done].
Qed.

End Methods.

(** * Client errors, the 401 and unparsable bodies on concrete networks *)

Section Scenarios.

Import APIClient Fixtures.

(** C4 at its failing input: a 404 whose JSON body carries the server's
    message is not thrown on the first attempt; the call tries three
    times, waiting twice, before the error reaches the caller. *)
Theorem client_error_with_message_is_retried :
  let r := get "" (always not_found) "/tasks/7" browser in
  completion_of r = Some (Throw (JS.new_Error "Task not found"))
  ∧ count is_fetch (trace_of r) = 3
  ∧ count is_sleep (trace_of r) = 2.
Proof. vm_compute. done. Qed.

(** The same 404 with a body that has no message is thrown on the first
    attempt: the text of the error decides. *)
Example client_error_without_message_is_terminal :
  let r := get "" (always (response 404 "Not Found" None (Some payload)))
             "/tasks/7" browser in
  completion_of r = Some (Throw (JS.new_Error "HTTP 404: Not Found"))
  ∧ count is_fetch (trace_of r) = 1
  ∧ count is_sleep (trace_of r) = 0.
Proof. vm_compute. done. Qed.


(** C7 fails as stated: a post whose argument has a [token] field, as
    the submission of a one-time code would, is fetched with a body that
    carries that field. *)
Lemma post_body_carries_callers_token :
  let sent := fetched (trace_of (call "" (always (response 200 "OK" None (Some payload)))
                                   "/auth/verify-2fa"
                                   (Post (JObj [("user_id", JNum 7);
                                                ("token", JStr "123456")]))
                                   browser)) in
  sent ≠ []
  ∧ Forall (λ sent, body_has_field "token" (body sent.2) = true) sent.
Proof. vm_compute. split; [done|]. by repeat constructor. Qed.

(** C2 at its failing input: the first [fetch] is rejected with the
    browser's "Failed to fetch" [TypeError] and the second would have
    succeeded, yet the call makes one attempt, does not wait, and
    throws. *)
Lemma network_failure_is_not_retried :
  let r := get "" (first_then (Rejected failed_to_fetch)
                              (Resolved (response 200 "OK" None (Some payload))))
             "/projects" browser in
  completion_of r = Some (Throw networkError)
  ∧ count is_fetch (trace_of r) = 1
  ∧ count is_sleep (trace_of r) = 0.
Proof. vm_compute. done. Qed.

(** C5 fails as stated: when every attempt receives a 401 the call makes
    three attempts, and removes the stored user and sets the location
    three times. *)
Lemma unauthorized_is_retried :
  let r := get "" (always unauthorized) "/projects" browser in
  completion_of r = Some (Throw (JS.new_Error "Unauthorized"))
  ∧ count is_fetch (trace_of r) = 3
  ∧ count is_removeItem (trace_of r) = 3
  ∧ count is_navigate (trace_of r) = 3.
Proof. vm_compute. done. Qed.

(** C6 fails as stated: a 200 whose body does not parse is followed by a
    second attempt, whose payload the call returns; and a 404 whose body
    does not parse ends in the same error as a 404 whose parsed body has
    no message. *)
Lemma malformed_body_is_retried :
  (let r := get "" (first_then (Resolved (response 200 "OK" None None))
                               (Resolved (response 200 "OK" None (Some payload))))
              "/projects" browser in
   completion_of r = Some (Return payload)
   ∧ count is_fetch (trace_of r) = 2)
  ∧ completion_of (get "" (always (response 404 "Not Found" None None))
                     "/projects" browser)
    = completion_of (get "" (always (response 404 "Not Found" None (Some payload)))
                       "/projects" browser).
Proof. vm_compute. done. Qed.

End Scenarios.

(** * The retry contract on concrete attempts *)

Section Witnesses.

Import APIClient Fixtures.


Lemma fetch_rejection_witness :
  iteration (always_rejected failed_to_fetch)
    ("" +:+ "/tasks") (config get_options) 1 3 browser
  = (browser, [EvFetch ("" +:+ "/tasks") (config get_options)],
     Done (Throw networkError))
  ∧ iteration (always_rejected load_failed)
      ("" +:+ "/tasks") (config get_options) 1 3 browser
    = (browser, [EvFetch ("" +:+ "/tasks") (config get_options);
                 EvSleep (JS.Num (2 ^ Z.of_nat 1 * 1000))], Continue)
  ∧ iteration (always_rejected load_failed)
      ("" +:+ "/tasks") (config get_options) 3 3 browser
    = (browser, [EvFetch ("" +:+ "/tasks") (config get_options);
                 EvConsoleError "API Error:" load_failed],
       Done (Throw load_failed)).
Proof.
  split; [|split].
  - apply (proj1 (fetch_rejection "" (always_rejected failed_to_fetch)
                    "/tasks" get_options 1 3 browser _ eq_refl ltac:(lia))).
    reflexivity.
  - apply (proj1 (proj2 (fetch_rejection "" (always_rejected load_failed)
                    "/tasks" get_options 1 3 browser _ eq_refl ltac:(lia))));
      [reflexivity|reflexivity|lia].
  - apply (proj2 (proj2 (fetch_rejection "" (always_rejected load_failed)
                    "/tasks" get_options 3 3 browser _ eq_refl ltac:(lia))));
      reflexivity.
Defined.

Lemma unauthorized_attempt_witness :
  iteration (always unauthorized) ("" +:+ "/tasks") (config get_options) 1 3 browser
  = (set_location_href "/login" (localStorage_removeItem "user" browser),
     [EvFetch ("" +:+ "/tasks") (config get_options);
      EvRemoveItem "user"; EvNavigate "/login"; EvSleep (JS.Num 2000)],
     Continue).
Proof.
  apply (unauthorized_attempt "" (always unauthorized) "/tasks" get_options
           1 3 browser unauthorized eq_refl eq_refl ltac:(lia)).
Defined.

Lemma malformed_body_witness :
  iteration (always (response 200 "OK" None None))
    ("" +:+ "/tasks") (config get_options) 1 3 browser
  = (browser, [EvFetch ("" +:+ "/tasks") (config get_options);
               EvSleep (JS.Num 2000)], Continue)
  ∧ parse_and_check (response 404 "Not Found" None (Some payload))
    = parse_and_check (response 404 "Not Found" None None).
Proof.
  split.
  - apply (proj1 (malformed_body "" (always (response 200 "OK" None None))
                    "/tasks" get_options 1 3 browser _ eq_refl eq_refl
                    ltac:(lia) ltac:(unfold reaches_parse; simpl; lia))).
  - apply (proj2 (malformed_body "" (always (response 404 "Not Found" None None))
                    "/tasks" get_options 3 3 browser _ eq_refl eq_refl
                    ltac:(lia) ltac:(unfold reaches_parse; simpl; lia))
             payload eq_refl);
      [discriminate|simpl; lia|simpl; lia].
Defined.

End Witnesses.

(** * The route guard *)

Section Guard.

Import ProtectedRoute.

(** C9: for a route that asks for manager access through either prop,
    once loading is over: without a user the result is the redirect to
    /login; with a user the children are rendered exactly when the role is
    Manager or Admin, and any other role gets the redirect to /dashboard.
    Exchanging the values of the two props changes nothing. *)
Theorem manager_route_guard props auth :
  loading auth = false →
  requireManager props = true ∨ requireAdmin props = true →
  match auth_user auth with
  | None => render props auth = Navigate "/login" true
  | Some u =>
      (render props auth = Children ↔ role u = "Manager" ∨ role u = "Admin")
      ∧ (role u ≠ "Manager" → role u ≠ "Admin" →
         render props auth = Navigate "/dashboard" true)
  end
  ∧ render props auth
    = render {| requireAdmin := requireManager props;
                requireManager := requireAdmin props |} auth.
Proof.
  intros Hl Hreq. unfold render. rewrite Hl. cbn [requireAdmin requireManager].
  assert (requireManager props || requireAdmin props = true) as Hor
    by (destruct Hreq as [-> | ->]; by rewrite ?orb_true_r).
  rewrite (orb_comm (requireAdmin props)), Hor.
  destruct (auth_user auth) as [u|]; [|done].
  split; [|done]. cbn [andb].
  destruct (String.eqb_spec (role u) "Manager") as [HM|HM];
    destruct (String.eqb_spec (role u) "Admin") as [HA|HA]; cbn [negb andb];
    (split; [split; [auto|]|]); try done; intuition congruence.
Qed.

Lemma manager_route_guard_witness :
  render {| requireAdmin := true; requireManager := false |}
    {| auth_user := Some {| user_name := "Jane"; role := "Employee" |};
       loading := false |}
  = Navigate "/dashboard" true.
Proof.
  apply (manager_route_guard {| requireAdmin := true; requireManager := false |}
           {| auth_user := Some {| user_name := "Jane"; role := "Employee" |};
              loading := false |} eq_refl (or_intror eq_refl));
    discriminate.
Defined.

(** A route that asks for nothing renders its children for any user. *)
Lemma open_route auth u :
  loading auth = false → auth_user auth = Some u →
  render default_props auth = Children.
Proof. intros Hl Hu. unfold render. by rewrite Hl, Hu. Qed.

End Guard.

(** * Logout *)

Section Logout.

Import AuthProvider.

(** C10: whatever the logout request yields, a response of any status or
    a rejection, logout ends with the stored user removed, the user state
    null and the location /login; these three effects close the trace, in
    that order, after everything that concerns the backend. *)
Theorem logout_always_clears outcome st :
  localStorage (logout outcome st).1 !! "user" = None
  ∧ user (logout outcome st).1 = None
  ∧ location_href (logout outcome st).1 = "/login"
  ∧ ∃ before,
      (logout outcome st).2
      = before ++ [EvRemoveItem "user"; EvSetUser None; EvNavigate "/login"]
      ∧ count is_navigate before = 0
      ∧ count is_removeItem before = 0.
Proof.
  unfold logout, logout_finally. cbn [fst snd].
  repeat split; try done.
  - apply lookup_delete_eq.
  - exists (logout_try_catch outcome). split; [done|].
    by destruct outcome.
Qed.

End Logout.

(** * The board's move and its rollback *)

Section BoardLists.

Import StatusBoard.















End BoardLists.

Section Rollback.

Import StatusBoard.

Variable task_of_data : Data → Task.
Variable baseURL : string.
Variable net : Network.




(** An answer to an older revision of a task is dropped: it changes
    nothing on the board. *)
Lemma settle_stale f c b :
  flight_revision f ≠ revision (flight_task f) b →
  settle task_of_data f c b = b.
Proof. unfold settle. by intros ->%Nat.eqb_neq. Qed.

(** Two drops of one task in a row: the answer to the first persist
    call, whatever it is, arrives too late and changes nothing. *)
Lemma settle_after_second_drop taskId s1 i1 s2 i2 b b1 f1 b2 f2 c :
  drop_card taskId s1 i1 b = Some (b1, f1) →
  drop_card taskId s2 i2 b1 = Some (b2, f2) →
  settle task_of_data f1 c b2 = b2.
Proof.
  unfold drop_card. intros H1 H2.
  destruct (find_task taskId (tasks b)); [|done].
  destruct (position taskId (tasks b)); [|done].
  cbn [mbind option_bind] in H1. injection H1 as <- <-.
  destruct (find_task taskId _); [|done].
  destruct (position taskId _); [|done].
  cbn [mbind option_bind] in H2. injection H2 as <- <-.
  apply settle_stale. unfold revision. cbn [flight_revision flight_task revisions].
  rewrite !lookup_insert_eq. generalize (default 0 (revisions b !! taskId)).
  intros n. cbv [from_option Datatypes.id]. lia.
Qed.

(** The persist call of a move never runs out of fuel and always
    settles, so a move ends committed or rolled back. *)
Lemma persist_call_settles taskId targetStatus st :
  ∃ st' tr c, persist_call baseURL net taskId targetStatus st = Some (st', tr, c)
              ∧ settles c.
Proof.
  unfold persist_call, APIClient.patch.
  destruct (request_bounded baseURL net ("/tasks/" +:+ JS.to_string taskId)
              (APIClient.options_of "PATCH" (Some (status_patch targetStatus)))
              APIClient.default_retries st) as (st' & tr & c & Hr & _ & Hs).
  - unfold APIClient.default_retries. lia.
  - eauto.
Qed.

End Rollback.

Section BoardScenarios.

Import StatusBoard Fixtures.

(** The optimistic reorder does move the task: task 2 dropped on the
    Done column at index 0 sits there before task 3. *)
Example optimistic_reorder :
  position 2 three_tasks = Some (InProgress, 0)
  ∧ position 2 (move_local (task 2 InProgress) Finished 0 three_tasks)
    = Some (Finished, 0)
  ∧ id <$> column Finished (move_local (task 2 InProgress) Finished 0 three_tasks)
    = [2; 3].
Proof. vm_compute. done. Qed.

(** Scenario 6 of the specification: task 1 dragged to Done at index 0,
    the PATCH answered with the updated record. *)
Example move_committed :
  let answer := response 200 "OK" None (Some payload) in
  let b' := (move (λ _, task 1 Finished) "" (always answer) 1 Finished 0
               board browser).1.1 in
  id <$> column ToDo (tasks b') = []
  ∧ id <$> column Finished (tasks b') = [1; 3]
  ∧ notifications b' = []
  ∧ phase 1 b' = Committed.
Proof. vm_compute. done. Qed.


End BoardScenarios.

(** * More on the request loop *)

Section LoopExecutions.

Import APIClient.

Variable net : Network.
Variable url : string.
Variable cfg : RequestInit.
Variable retries : nat.

(** Every result of the loop function is an execution of the loop. *)
Lemma request_loop_runs fuel attempt st st' tr c :
  request_loop net url cfg retries fuel attempt st = Some (st', tr, c) →
  runs net url cfg retries attempt st st' tr c.
Proof.
  revert attempt st st' tr c.
  induction fuel as [|fuel IH]; intros attempt st st' tr c; simpl.
  - destruct (attempt <=? retries)%nat eqn:Hle; [done|].
    apply Nat.leb_gt in Hle. intros [= <- <- <-]. by constructor.
  - destruct (attempt <=? retries)%nat eqn:Hle.
    + apply Nat.leb_le in Hle.
      destruct (iteration net url cfg attempt retries st)
        as [[st1 ev1] flow] eqn:Hit.
      destruct flow as [|c1].
      * destruct (request_loop net url cfg retries fuel (S attempt) st1)
          as [[[st2 ev2] c2]|] eqn:Hrec; [|done].
        intros [= <- <- <-]. eapply runs_continue; eauto.
      * intros [= <- <- <-]. by eapply runs_done.
    + apply Nat.leb_gt in Hle. intros [= <- <- <-]. by constructor.
Qed.

(** What one iteration can do, in full: the state is untouched unless
    the response is a 401; an iteration that goes round ends with its one
    wait; one that returns has seen an ok response with that very body;
    one that throws has logged the error unless it is the connectivity
    error. *)
Lemma iteration_cases attempt st st1 ev flow :
  iteration net url cfg attempt retries st = (st1, ev, flow) →
  (st1 = st ∨
   (∃ r, net attempt = Resolved r ∧ status r = 401) ∧ st1 = signed_out st)
  ∧ ((∀ r, net attempt = Resolved r → status r ≠ 401) → st1 = st)
  ∧ match flow with
    | Continue => ∃ pre d, ev = pre ++ [EvSleep d] ∧ sleeps pre = []
    | Done c =>
        sleeps ev = []
        ∧ match c with
          | Return d =>
              ∃ r, net attempt = Resolved r ∧ ok r = true ∧ json r = Some d
                   ∧ ev = [EvFetch url cfg] ∧ st1 = st
          | Throw e =>
              (e = networkError ∧ ev = [EvFetch url cfg])
              ∨ ∃ pre, ev = pre ++ [EvConsoleError "API Error:" e]
          | ReturnUndefined => False
          end
    end.
Proof.
  unfold iteration, try_block, server_error_check, parse_and_check,
    throw_message, catch_block, signed_out.
  destruct (net attempt) as [e|r] eqn:Hnet.
  - repeat case_match; intros ?; simplify_eq;
      (split; [by left|split; [done|]]);
      first [ by (split; [done|left])
            | by (split; [done|right; eexists [_]])
            | by (exists [EvFetch url cfg]; eexists) ].
  - destruct (status r =? 401)%nat eqn:H401.
    + apply Nat.eqb_eq in H401.
      repeat case_match; intros ?; simplify_eq;
        (split; [right; split; [by eexists|done]|
         split; [intros Hno; by destruct (Hno r)|]]);
        first [ by (split; [done|right; eexists [_; _; _]])
              | by (eexists [_; _; _]; eexists) ].
    + repeat case_match; intros ?; simplify_eq;
        (split; [by left|split; [done|]]);
        first [ by (split; [done|left])
              | by (split; [done|right; eexists [_]])
              | by (exists [EvFetch url cfg]; eexists)
              | by (split; [done|]; eexists; repeat split;
                    by destruct (ok r)) ].
Qed.

End LoopExecutions.

Section CallInvariants.

Import APIClient.

Variable baseURL : string.
Variable net : Network.
Variable endpoint : string.
Variable options : RequestInit.
Variable retries : nat.

Lemma signed_out_twice st : signed_out (signed_out st) = signed_out st.
Proof.
  unfold signed_out, set_location_href, localStorage_removeItem. simpl.
  by rewrite delete_delete_eq.
Qed.

Lemma sleeps_app tr1 tr2 : sleeps (tr1 ++ tr2) = sleeps tr1 ++ sleeps tr2.
Proof. unfold sleeps. apply omap_app. Qed.

Lemma runs_state url cfg attempt st st' tr c :
  runs net url cfg retries attempt st st' tr c →
  (st' = st ∨ st' = signed_out st)
  ∧ ((∀ n r, attempt ≤ n ≤ retries → net n = Resolved r → status r ≠ 401) →
     st' = st).
Proof.
  induction 1 as [attempt st Hgt|attempt st st1 ev c Hle Hit
                 |attempt st st1 ev st2 ev2 c Hle Hit Hrest IH].
  - split; [by left|done].
  - apply iteration_cases in Hit as (Hst & Hno & _). split.
    + destruct Hst as [->|[_ ->]]; [by left|by right].
    + intros Hall. apply Hno. intros r Hr. apply (Hall attempt r); [lia|done].
  - apply iteration_cases in Hit as (Hst & Hno & _).
    destruct IH as [IH1 IH2]. split.
    + destruct Hst as [->|[_ ->]]; [done|].
      destruct IH1 as [->| ->]; [by right|right; apply signed_out_twice].
    + intros Hall.
      rewrite IH2 by (intros n r Hn; apply Hall; lia).
      apply Hno. intros r Hr. apply (Hall attempt r); [lia|done].
Qed.

(** A call changes the browser state in one way only, the sign-out (the
    'user' entry removed and the location set to /login), and not at all
    when no attempt gets a 401. The auth context's user and every other
    storage entry are never touched. *)
Theorem request_state_footprint st st' tr c :
  request baseURL net endpoint options retries st = Some (st', tr, c) →
  (st' = st ∨ st' = signed_out st)
  ∧ ((∀ n r, 1 ≤ n ≤ retries → net n = Resolved r → status r ≠ 401) →
     st' = st)
  ∧ user st' = user st
  ∧ ∀ k, k ≠ "user" → localStorage st' !! k = localStorage st !! k.
Proof.
  intros Hr. apply request_loop_runs, runs_state in Hr as [Hst Hno].
  split; [done|]. split; [done|].
  destruct Hst as [->| ->]; [done|]. split; [done|].
  intros k Hk. simpl. by rewrite lookup_delete_ne.
Qed.

Lemma runs_counts url cfg attempt st st' tr c :
  runs net url cfg retries attempt st st' tr c →
  attempt ≤ retries →
  length (fetched tr) = S (length (sleeps tr)).
Proof.
  induction 1 as [attempt st Hgt|attempt st st1 ev c Hle Hit
                 |attempt st st1 ev st2 ev2 c Hle Hit Hrest IH]; intros Ha.
  - lia.
  - pose proof Hit as Hit'.
    apply iteration_spec in Hit as (_ & -> & _).
    apply iteration_cases in Hit' as (_ & _ & -> & _). done.
  - pose proof Hit as Hit'.
    apply iteration_spec in Hit as (_ & Hf & Hlt).
    apply iteration_cases in Hit' as (_ & _ & pre & d & -> & Hpre).
    rewrite fetched_app, sleeps_app, Hf, sleeps_app, Hpre, !length_app.
    rewrite IH by lia. simpl. lia.
Qed.

(** Between two attempts of a call there is exactly one wait and after
    the last attempt none: the trace holds one wait fewer than it holds
    fetches. *)
Theorem request_waits_between_attempts st st' tr c :
  0 < retries →
  request baseURL net endpoint options retries st = Some (st', tr, c) →
  length (fetched tr) = S (length (sleeps tr)).
Proof.
  intros Hpos Hr. apply request_loop_runs in Hr.
  eapply runs_counts; [exact Hr|lia].
Qed.

Lemma runs_logged url cfg attempt st st' tr c e :
  runs net url cfg retries attempt st st' tr c →
  c = Throw e →
  (e = networkError ∧ ∃ pre, tr = pre ++ [EvFetch url cfg])
  ∨ ∃ pre, tr = pre ++ [EvConsoleError "API Error:" e].
Proof.
  induction 1 as [attempt st Hgt|attempt st st1 ev c Hle Hit
                 |attempt st st1 ev st2 ev2 c Hle Hit Hrest IH]; intros Hc;
    [done|subst c|subst c].
  - apply iteration_cases in Hit as (_ & _ & _ & [[-> ->]|[pre ->]]).
    + left. split; [done|]. by exists [].
    + right. by exists pre.
  - destruct (IH eq_refl) as [[-> [pre ->]]|[pre ->]].
    + left. split; [done|]. exists (ev ++ pre). by rewrite <- (assoc_L (++)).
    + right. exists (ev ++ pre). by rewrite <- (assoc_L (++)).
Qed.

(** Whenever a call throws, the last thing it did was to log that very
    error with [console.error], with one exception: the connectivity error
    is thrown straight after the failed fetch, unlogged. *)
Theorem request_throw_is_logged st st' tr e :
  request baseURL net endpoint options retries st = Some (st', tr, Throw e) →
  (e = networkError
   ∧ ∃ pre, tr = pre ++ [EvFetch (baseURL +:+ endpoint) (config options)])
  ∨ ∃ pre, tr = pre ++ [EvConsoleError "API Error:" e].
Proof.
  intros Hr. apply request_loop_runs in Hr. by eapply runs_logged.
Qed.

Lemma runs_return url cfg attempt st st' tr c d :
  runs net url cfg retries attempt st st' tr c →
  c = Return d →
  ∃ n r, attempt ≤ n ≤ retries ∧ net n = Resolved r
         ∧ ok r = true ∧ json r = Some d
         ∧ ∃ pre, tr = pre ++ [EvFetch url cfg].
Proof.
  induction 1 as [attempt st Hgt|attempt st st1 ev c Hle Hit
                 |attempt st st1 ev st2 ev2 c Hle Hit Hrest IH]; intros Hc;
    [done|subst c|subst c].
  - apply iteration_cases in Hit as (_ & _ & _ & r & Hr & Hok & Hj & -> & _).
    exists attempt, r. repeat split; try done. by exists [].
  - destruct (IH eq_refl) as (n & r & Hn & Hr & Hok & Hj & pre & ->).
    exists n, r. repeat split; try done; try lia.
    exists (ev ++ pre). by rewrite <- (assoc_L (++)).
Qed.

(** A payload the call returns is the parsed body of a response with an
    ok status that one of the attempts received, and that attempt's fetch
    is the last event of the call: nothing is logged or waited for after
    it. *)
Theorem request_return_sound st st' tr d :
  request baseURL net endpoint options retries st = Some (st', tr, Return d) →
  ∃ n r, 1 ≤ n ≤ retries ∧ net n = Resolved r
         ∧ ok r = true ∧ json r = Some d
         ∧ ∃ pre, tr = pre ++ [EvFetch (baseURL +:+ endpoint) (config options)].
Proof.
  intros Hr. apply request_loop_runs in Hr. by eapply runs_return.
Qed.

(** A call ends without a payload and without an error, by returning
    [undefined], exactly when its bound is 0; it has then done nothing. *)
Theorem request_undefined_iff st st' tr c :
  request baseURL net endpoint options retries st = Some (st', tr, c) →
  (c = ReturnUndefined ↔ retries = 0)
  ∧ (retries = 0 → tr = [] ∧ st' = st).
Proof.
  intros Hr. split; [split|].
  - intros ->. destruct retries as [|n] eqn:Hn; [done|].
    unfold request in Hr.
    eapply request_loop_settles in Hr; [|lia].
    by destruct Hr as [[d ?]|[e ?]].
  - intros Hz. rewrite Hz in Hr. unfold request in Hr. simpl in Hr.
    by injection Hr as <- <- <-.
  - intros Hz. rewrite Hz in Hr. unfold request in Hr. simpl in Hr.
    by injection Hr as <- <- <-.
Qed.

End CallInvariants.

(** * Retries: recovery, exhaustion and the schedule of waits *)

Section RetrySteps.

Import APIClient.

Variable net : Network.
Variable url : string.
Variable cfg : RequestInit.
Variable retries : nat.

Lemma retryable_cases r :
  retryable r = true → status r = 429 ∨ 500 ≤ status r.
Proof.
  unfold retryable. intros [H|H]%orb_true_iff.
  - left. by apply Nat.eqb_eq.
  - right. by apply Nat.leb_le.
Qed.

Lemma iteration_retryable attempt st r :
  net attempt = Resolved r → retryable r = true → attempt < retries →
  iteration net url cfg attempt retries st =
    (st, [EvFetch url cfg; EvSleep (retry_wait attempt r)], Continue).
Proof.
  intros Hnet Hr Hlt. unfold retry_wait.
  destruct (status r =? 429)%nat eqn:H429.
  - apply Nat.eqb_eq in H429. by eapply iteration_rate_limited.
  - apply retryable_cases in Hr as [Hr|Hr];
      [apply Nat.eqb_neq in H429; done|].
    by eapply iteration_server_error.
Qed.

Lemma iteration_success attempt st r d :
  net attempt = Resolved r → ok r = true → json r = Some d →
  iteration net url cfg attempt retries st =
    (st, [EvFetch url cfg], Done (Return d)).
Proof.
  intros Hnet Hok Hj. unfold iteration. rewrite Hnet.
  pose proof Hok as Hok'. unfold ok in Hok'.
  apply andb_true_iff in Hok' as [Hlo%Nat.leb_le Hhi%Nat.leb_le].
  rewrite try_block_reaches_parse by (split; [lia|intros _; lia]).
  unfold parse_and_check. by rewrite Hj, Hok.
Qed.

Lemma iteration_exhausted st r :
  net retries = Resolved r → retryable r = true →
  iteration net url cfg retries retries st =
    (st, [EvFetch url cfg; EvConsoleError "API Error:" (exhausted_error r)],
     Done (Throw (exhausted_error r))).
Proof.
  intros Hnet Hr. apply retryable_cases in Hr.
  unfold iteration. rewrite Hnet.
  rewrite try_block_reaches_parse by (split; lia).
  assert (parse_and_check r = Done (Throw (exhausted_error r))) as ->.
  { unfold parse_and_check, exhausted_error, ok.
    destruct (json r) as [d|]; [|done].
    assert ((status r <=? 299)%nat = false) as -> by (apply Nat.leb_gt; lia).
    rewrite andb_false_r. cbn [negb].
    assert ((status r =? 401)%nat = false) as -> by (apply Nat.eqb_neq; lia).
    destruct (status r =? 429)%nat eqn:H429; [done|].
    apply Nat.eqb_neq in H429.
    assert ((500 <=? status r)%nat = true) as -> by (apply Nat.leb_le; lia).
    done. }
  rewrite catch_block_plain;
    [|unfold exhausted_error; by destruct (json r), (status r =? 429)%nat|done].
  by rewrite Nat.eqb_refl.
Qed.

(** A run of retryable responses below the bound is a run of
    fetch-and-wait pairs, after which the loop carries on. *)
Lemma request_loop_retry_prefix n a fuel st :
  a + n ≤ retries →
  (∀ i, a ≤ i < a + n → ∃ r, net i = Resolved r ∧ retryable r = true) →
  request_loop net url cfg retries (n + fuel) a st =
    match request_loop net url cfg retries fuel (a + n) st with
    | Some (st2, ev2, c) => Some (st2, retry_trace net url cfg a n ++ ev2, c)
    | None => None
    end.
Proof.
  revert a. induction n as [|n IH]; intros a Hle Hall.
  - rewrite Nat.add_0_r. simpl.
    by destruct (request_loop net url cfg retries fuel a st) as [[[? ?] ?]|].
  - destruct (Hall a) as (r & Hr & Hre); [lia|].
    change (S n + fuel) with (S (n + fuel)).
    rewrite (request_loop_continue net url cfg retries (n + fuel) a st st
               [EvFetch url cfg; EvSleep (retry_wait a r)]);
      [|lia|apply iteration_retryable; [done|done|lia]].
    rewrite IH by (try lia; intros i Hi; apply Hall; lia).
    replace (S a + n) with (a + S n) by lia.
    destruct (request_loop net url cfg retries fuel (a + S n) st)
      as [[[st2 ev2] c]|]; [|done].
    cbn [retry_trace]. rewrite Hr. by rewrite <- (assoc_L (++)).
Qed.

End RetrySteps.

Section Retries.

Import APIClient.

Variable baseURL : string.
Variable net : Network.
Variable endpoint : string.
Variable options : RequestInit.
Variable retries : nat.

(** Recovery: when the attempts before the [k]-th get 429 or 5xx
    responses and the [k]-th, still within the bound, gets an ok response
    whose body parses, the call returns that body. It has fetched [k]
    times, waited after each of the first [k-1], logged nothing and left
    the browser state as it was. *)
Theorem request_recovers k st r d :
  1 ≤ k ≤ retries →
  (∀ i, 1 ≤ i < k → ∃ ri, net i = Resolved ri ∧ retryable ri = true) →
  net k = Resolved r → ok r = true → json r = Some d →
  request baseURL net endpoint options retries st =
    Some (st,
          retry_trace net (baseURL +:+ endpoint) (config options) 1 (k - 1)
          ++ [EvFetch (baseURL +:+ endpoint) (config options)],
          Return d).
Proof.
  intros Hk Hall Hnet Hok Hj. unfold request.
  set (url := baseURL +:+ endpoint). set (cfg := config options).
  replace retries with ((k - 1) + S (retries - k)) at 2 by lia.
  rewrite request_loop_retry_prefix
    by (try lia; intros i Hi; apply Hall; lia).
  replace (1 + (k - 1)) with k by lia.
  by rewrite (request_loop_done net url cfg retries (retries - k) k st st
                [EvFetch url cfg] (Return d))
    by (try lia; by eapply iteration_success).
Qed.

(** Exhaustion: when every attempt gets a 429 or 5xx response, the call
    fetches [retries] times, waits after each attempt but the last, and
    throws an error built from the last response alone: the status line
    when its body does not parse, and otherwise a fixed text, so that the
    server's own message never reaches the caller. The browser state is
    as it was. *)
Theorem request_exhausts st r :
  0 < retries →
  (∀ i, 1 ≤ i < retries → ∃ ri, net i = Resolved ri ∧ retryable ri = true) →
  net retries = Resolved r → retryable r = true →
  request baseURL net endpoint options retries st =
    Some (st,
          retry_trace net (baseURL +:+ endpoint) (config options) 1 (retries - 1)
          ++ [EvFetch (baseURL +:+ endpoint) (config options);
              EvConsoleError "API Error:" (exhausted_error r)],
          Throw (exhausted_error r)).
Proof.
  intros Hpos Hall Hnet Hr. unfold request.
  set (url := baseURL +:+ endpoint). set (cfg := config options).
  replace retries with ((retries - 1) + 1) at 2 by lia.
  rewrite request_loop_retry_prefix
    by (try lia; intros i Hi; apply Hall; lia).
  replace (1 + (retries - 1)) with retries by lia.
  by rewrite (request_loop_done net url cfg retries 0 retries st st
                [EvFetch url cfg; EvConsoleError "API Error:" (exhausted_error r)]
                (Throw (exhausted_error r)))
    by (try lia; by apply iteration_exhausted).
Qed.

End Retries.

(** * The schedule of waits *)

Section Schedule.

Import APIClient.

Variable net : Network.
Variable url : string.
Variable cfg : RequestInit.
Variable retries : nat.

Lemma iteration_backoff attempt st st1 ev :
  iteration net url cfg attempt retries st = (st1, ev, Continue) →
  (∀ r, net attempt = Resolved r → status r ≠ 429) →
  sleeps ev = [JS.backoff attempt].
Proof.
  unfold iteration, try_block, server_error_check, parse_and_check,
    throw_message, catch_block.
  destruct (net attempt) as [e|r] eqn:Hnet.
  - repeat case_match; intros ? _; by simplify_eq.
  - intros Hit Hno. specialize (Hno r eq_refl).
    apply Nat.eqb_neq in Hno. rewrite Hno in Hit.
    revert Hit. repeat case_match; intros ?; by simplify_eq.
Qed.

Lemma runs_schedule attempt st st' tr c :
  runs net url cfg retries attempt st st' tr c →
  (∀ n r, attempt ≤ n ≤ retries → net n = Resolved r → status r ≠ 429) →
  sleeps tr = JS.backoff <$> seq attempt (length (sleeps tr)).
Proof.
  induction 1 as [attempt st Hgt|attempt st st1 ev c Hle Hit
                 |attempt st st1 ev st2 ev2 c Hle Hit Hrest IH]; intros Hno.
  - done.
  - apply iteration_cases in Hit as (_ & _ & -> & _). done.
  - apply iteration_backoff in Hit;
      [|intros r Hr; apply (Hno attempt r); [lia|done]].
    rewrite sleeps_app, Hit. cbn [app length seq fmap list_fmap].
    f_equal. apply IH. intros n r Hn. apply Hno. lia.
Qed.

End Schedule.

Section ScheduleOfCall.

Import APIClient.

Variable baseURL : string.
Variable net : Network.
Variable endpoint : string.
Variable options : RequestInit.
Variable retries : nat.

(** When no attempt gets a 429, the waits of a call are, in order, those
    of the exponential schedule, [2^1 * 1000] ms, [2^2 * 1000] ms and so
    on, one after each attempt but the last, whatever made the attempts
    fail. *)
Theorem request_backoff_schedule st st' tr c :
  0 < retries →
  (∀ n r, 1 ≤ n ≤ retries → net n = Resolved r → status r ≠ 429) →
  request baseURL net endpoint options retries st = Some (st', tr, c) →
  sleeps tr = JS.backoff <$> seq 1 (length (fetched tr) - 1).
Proof.
  intros Hpos Hno Hr. apply request_loop_runs in Hr.
  rewrite (runs_counts _ _ _ _ _ _ _ _ _ Hr) by lia.
  replace (S (length (sleeps tr)) - 1) with (length (sleeps tr)) by lia.
  by eapply runs_schedule.
Qed.

End ScheduleOfCall.

(** * Which client errors end a call at once *)

Section StatusLine.

Import APIClient.

Lemma append_assoc (a b c : string) : (a +:+ b) +:+ c = a +:+ (b +:+ c).
Proof.
  induction a as [|x a IH]; [done|].
  change (String x ((a +:+ b) +:+ c) = String x (a +:+ (b +:+ c))).
  by f_equal.
Qed.

Lemma prefix_empty_r needle : needle ≠ "" → String.prefix needle "" = false.
Proof. by destruct needle. Qed.

Lemma prefix_append needle s t :
  String.prefix needle s = true → String.prefix needle (s +:+ t) = true.
Proof.
  revert s. induction needle as [|x needle IH]; intros s.
  - by destruct s, t.
  - destruct s as [|y s]; [done|].
    change (String y s +:+ t) with (String y (s +:+ t)). simpl.
    destruct (ascii_dec x y); [apply IH|done].
Qed.

Lemma includes_unfold c s needle :
  JS.includes (String c s) needle
  = String.prefix needle (String c s) || JS.includes s needle.
Proof. reflexivity. Qed.

Lemma includes_prefix s needle :
  String.prefix needle s = true → JS.includes s needle = true.
Proof. destruct s; simpl; by intros ->. Qed.

(** A needle cannot start before a character it does not contain and
    end after it. *)
Lemma prefix_across c needle a b :
  occurs c needle = false →
  String.prefix needle (a +:+ String c b) = String.prefix needle a.
Proof.
  revert a. induction needle as [|x needle IH]; intros a Hc.
  - by destruct a.
  - simpl in Hc. apply orb_false_iff in Hc as [Hx Hn].
    destruct a as [|y a].
    + change ("" +:+ String c b) with (String c b). simpl.
      destruct (ascii_dec x c) as [->|]; [|done].
      by rewrite Ascii.eqb_refl in Hx.
    + change (String y a +:+ String c b) with (String y (a +:+ String c b)).
      simpl. destruct (ascii_dec x y); [by apply IH|done].
Qed.

Lemma includes_across c needle a b :
  needle ≠ "" → occurs c needle = false →
  JS.includes (a +:+ String c b) needle
  = JS.includes a needle || JS.includes b needle.
Proof.
  intros Hne Hc. induction a as [|y a IH].
  - change ("" +:+ String c b) with (String c b).
    rewrite includes_unfold.
    rewrite (prefix_across c needle "" b Hc : String.prefix needle (String c b) = _).
    change (JS.includes "" needle) with (String.prefix needle "" || false).
    by rewrite prefix_empty_r.
  - change (String y a +:+ String c b) with (String y (a +:+ String c b)).
    rewrite !includes_unfold, IH.
    rewrite (prefix_across c needle (String y a) b Hc
             : String.prefix needle (String y (a +:+ String c b)) = _).
    by rewrite orb_assoc.
Qed.

(** The status line of a status from 400 to 499 starts with "HTTP 4" and
    mentions 401 or 429 only if that is the status. *)
Lemma status_line_head n :
  400 ≤ n < 500 →
  String.prefix "HTTP 4" ("HTTP " +:+ JS.to_string n) = true
  ∧ JS.includes ("HTTP " +:+ JS.to_string n) "401" = (n =? 401)%nat
  ∧ JS.includes ("HTTP " +:+ JS.to_string n) "429" = (n =? 429)%nat.
Proof.
  intros Hn.
  assert (forallb (λ n,
            String.prefix "HTTP 4" ("HTTP " +:+ JS.to_string n)
            && Bool.eqb (JS.includes ("HTTP " +:+ JS.to_string n) "401") (n =? 401)%nat
            && Bool.eqb (JS.includes ("HTTP " +:+ JS.to_string n) "429") (n =? 429)%nat)
            (seq 400 100) = true) as Hall by (vm_compute; reflexivity).
  rewrite forallb_forall in Hall.
  specialize (Hall n ltac:(apply in_seq; lia)).
  apply andb_true_iff in Hall as [[H1 H2]%andb_true_iff H3].
  by apply Bool.eqb_prop in H2, H3.
Qed.

Lemma http_message_split r :
  http_message r
  = ("HTTP " +:+ JS.to_string (status r)) +:+ String ":" (String " " (statusText r)).
Proof. unfold http_message. by rewrite append_assoc. Qed.

(** The client-error test of the [catch] block on a status line: for a
    status from 400 to 499 it is met exactly when neither the status nor
    the status text brings in "401" or "429". *)
Lemma client_error_status_line r :
  400 ≤ status r < 500 →
  client_error_message (http_message r)
  = negb (status r =? 401)%nat && negb (JS.includes (statusText r) "401")
    && negb (status r =? 429)%nat && negb (JS.includes (statusText r) "429").
Proof.
  intros Hs. destruct (status_line_head (status r) Hs) as (Hp & H401 & H429).
  unfold client_error_message. rewrite http_message_split.
  rewrite (includes_prefix _ "HTTP 4") by (by apply prefix_append).
  rewrite !includes_across by done.
  rewrite H401, H429, !includes_unfold.
  change (String.prefix "401" (String " " (statusText r))) with false.
  change (String.prefix "429" (String " " (statusText r))) with false.
  cbn [orb andb]. rewrite !negb_orb. by rewrite !andb_assoc.
Qed.

End StatusLine.

Section ClientErrors.

Import APIClient.

Variable baseURL : string.
Variable net : Network.
Variable endpoint : string.
Variable options : RequestInit.
Variable retries : nat.

Lemma parse_and_check_fallback r :
  400 ≤ status r < 500 → status r ≠ 401 → status r ≠ 429 →
  (json r = None
   ∨ ∃ d, json r = Some d ∧ content d ≠ JNull
          ∧ JS.truthy (data_message d) = false) →
  parse_and_check r = Done (Throw (JS.new_Error (http_message r))).
Proof.
  intros Hs H401 H429 Hbody. unfold parse_and_check, ok.
  destruct Hbody as [->|(d & -> & Hnn & Hm)]; [done|].
  rewrite !throw_message_not_null by done. unfold message_or. rewrite Hm.
  assert ((status r <=? 299)%nat = false) as -> by (apply Nat.leb_gt; lia).
  rewrite andb_false_r.
  apply Nat.eqb_neq in H401 as ->. apply Nat.eqb_neq in H429 as ->.
  assert ((500 <=? status r)%nat = false) as -> by (apply Nat.leb_gt; lia).
  done.
Qed.

(** A 4xx other than 401 and 429 whose body gives no message (it does not
    parse, or it parses to something other than [null] with no or an
    empty [message]) ends the call on the attempt that receives it,
    provided the status text itself mentions neither 401 nor 429: the
    error, whose text is the status line, is logged and thrown with no
    wait and no further fetch. *)
Theorem request_client_error_terminal k st r :
  1 ≤ k ≤ retries →
  (∀ i, 1 ≤ i < k → ∃ ri, net i = Resolved ri ∧ retryable ri = true) →
  net k = Resolved r →
  400 ≤ status r < 500 → status r ≠ 401 → status r ≠ 429 →
  JS.includes (statusText r) "401" = false →
  JS.includes (statusText r) "429" = false →
  (json r = None
   ∨ ∃ d, json r = Some d ∧ content d ≠ JNull
          ∧ JS.truthy (data_message d) = false) →
  request baseURL net endpoint options retries st =
    Some (st,
          retry_trace net (baseURL +:+ endpoint) (config options) 1 (k - 1)
          ++ [EvFetch (baseURL +:+ endpoint) (config options);
              EvConsoleError "API Error:" (JS.new_Error (http_message r))],
          Throw (JS.new_Error (http_message r))).
Proof.
  intros Hk Hall Hnet Hs H401 H429 Ht401 Ht429 Hbody. unfold request.
  set (url := baseURL +:+ endpoint). set (cfg := config options).
  replace retries with ((k - 1) + S (retries - k)) at 2 by lia.
  rewrite request_loop_retry_prefix
    by (try lia; intros i Hi; apply Hall; lia).
  replace (1 + (k - 1)) with k by lia.
  rewrite (request_loop_done net url cfg retries (retries - k) k st st
             [EvFetch url cfg;
              EvConsoleError "API Error:" (JS.new_Error (http_message r))]
             (Throw (JS.new_Error (http_message r)))); [done|lia|].
  unfold iteration. rewrite Hnet.
  rewrite try_block_reaches_parse by (split; [done|intros _; split; [done|lia]]).
  rewrite parse_and_check_fallback by done.
  rewrite catch_block_plain by (done || lia).
  cbn [JS.message JS.new_Error].
  rewrite client_error_status_line, Ht401, Ht429 by done.
  apply Nat.eqb_neq in H401 as ->. apply Nat.eqb_neq in H429 as ->.
  by rewrite orb_true_r.
Qed.

(** Whatever options a caller passes to [request], every fetch of the
    call is made with credentials 'include', passes on each header the
    caller gave with the caller's value (a Content-Type or Authorization
    of the caller's included), adds the JSON Content-Type only when the
    caller gave none, and keeps the caller's method and body. *)
Theorem request_config_precedence st :
  Forall (λ sent,
      credentials sent.2 = Some "include"
      ∧ method sent.2 = method options
      ∧ body sent.2 = body options
      ∧ (∀ k v, headers options !! k = Some v → headers sent.2 !! k = Some v)
      ∧ (∀ k, headers options !! k = None →
              headers sent.2 !! k = getAuthHeaders !! k))
    (fetched (trace_of (request baseURL net endpoint options retries st))).
Proof.
  unfold request.
  destruct (request_loop net (baseURL +:+ endpoint) (config options)
              retries retries 1 st) as [[[st' tr] c]|] eqn:Hr;
    [|by constructor].
  cbn [trace_of]. apply request_loop_fetched in Hr as (n & -> & _).
  apply Forall_replicate. cbn [snd config credentials method body headers].
  repeat split.
  - intros k v Hk. by apply lookup_union_Some_l.
  - intros k Hk. by apply lookup_union_r.
Qed.

End ClientErrors.

(** * The auth provider: mount, login, reload *)

Section Provider.

Import AuthContext.

Variable JSON_parse : string → JS.Error + option User.
Variable JSON_stringify : User → string.

(** The mount effect always ends the loading phase, never moves the page
    and never writes to storage, except that it removes a stored user
    that does not parse; the user state changes only when a stored user
    parses. A missing, empty or "undefined" entry is left alone and not
    even parsed. *)
Theorem on_mount_footprint p :
  loading (on_mount JSON_parse p).1 = false
  ∧ location_href (page (on_mount JSON_parse p).1) = location_href (page p)
  ∧ (∀ k, k ≠ "user" →
       localStorage (page (on_mount JSON_parse p).1) !! k
       = localStorage (page p) !! k)
  ∧ (localStorage (page p) !! "user" = None
     ∨ localStorage (page p) !! "user" = Some ""
     ∨ localStorage (page p) !! "user" = Some "undefined" →
     on_mount JSON_parse p = ({| page := page p; loading := false |}, []))
  ∧ (∀ s e, localStorage (page p) !! "user" = Some s → s ≠ "" →
       s ≠ "undefined" → JSON_parse s = inl e →
       localStorage (page (on_mount JSON_parse p).1) !! "user" = None
       ∧ user (page (on_mount JSON_parse p).1) = user (page p))
  ∧ (∀ s u, localStorage (page p) !! "user" = Some s → s ≠ "" →
       s ≠ "undefined" → JSON_parse s = inr u →
       user (page (on_mount JSON_parse p).1) = u
       ∧ localStorage (page (on_mount JSON_parse p).1) = localStorage (page p)).
Proof.
  unfold on_mount.
  destruct (localStorage (page p) !! "user") as [s|] eqn:Hs; cbn [JS.truthy];
    [destruct (String.eqb_spec s "") as [->|Hne]; cbn [negb andb from_option id];
     [|destruct (String.eqb_spec s "undefined") as [->|Hnu]; cbn [negb];
       [|destruct (JSON_parse s) as [e|u] eqn:Hp; cbn [fst page loading]]]|];
    repeat split; try done; intros;
    repeat match goal with H : _ ∨ _ |- _ => destruct H end;
    simplify_eq; try congruence; repeat split; simpl;
    rewrite ?lookup_delete_eq; try congruence; by rewrite lookup_delete_ne.
Qed.

(** Login then reload: after a login without second factor whose answer
    carries a user, a reload restores that user from storage, provided
    parsing undoes the serialisation of that user. *)
Theorem login_then_reload data u st :
  two_factor_enabled data = false → data_user data = Some u →
  JSON_stringify u ≠ "" → JSON_stringify u ≠ "undefined" →
  JSON_parse (JSON_stringify u) = inr (Some u) →
  let st1 := (login JSON_stringify (inr data) st).1.1 in
  user st1 = Some u
  ∧ user (page (reload JSON_parse st1).1) = Some u
  ∧ loading (reload JSON_parse st1).1 = false.
Proof.
  intros H2fa Hu Hne Hnu Hparse. unfold login. rewrite H2fa, Hu.
  cbn [fst stored_user]. split; [done|].
  unfold reload, on_mount, initial. cbn [page localStorage localStorage_setItem setUser].
  rewrite lookup_insert_eq. cbn [JS.truthy from_option id].
  destruct (String.eqb_spec (JSON_stringify u) ""); [done|].
  destruct (String.eqb_spec (JSON_stringify u) "undefined"); [done|].
  cbn [negb andb]. by rewrite Hparse.
Qed.

(** A login answer without a user stores the text "undefined"; a reload
    then leaves that entry alone, does not try to parse it, and comes up
    with no user. *)
Theorem login_without_user_then_reload data st :
  two_factor_enabled data = false → data_user data = None →
  let st1 := (login JSON_stringify (inr data) st).1.1 in
  localStorage st1 !! "user" = Some "undefined"
  ∧ user st1 = None
  ∧ reload JSON_parse st1
    = ({| page := {| localStorage := localStorage st1;
                     location_href := location_href st1;
                     user := None |};
          loading := false |}, []).
Proof.
  intros H2fa Hu. unfold login. rewrite H2fa, Hu. cbn [fst stored_user].
  split; [apply lookup_insert_eq|]. split; [done|].
  unfold reload, on_mount, initial.
  cbn [page localStorage localStorage_setItem setUser location_href].
  by rewrite lookup_insert_eq.
Qed.

(** A login that asks for the second factor, and a login that fails,
    leave the stored user and the user state as they were: the first only
    records the pending user id as decimal text, the second changes
    nothing and hands the error on. *)
Theorem login_without_session answer st :
  (∀ data, answer = inr data → two_factor_enabled data = true) →
  let '(st1, ev, res) := login JSON_stringify answer st in
  user st1 = user st
  ∧ localStorage st1 !! "user" = localStorage st !! "user"
  ∧ ev = []
  ∧ match answer with
    | inl e => st1 = st ∧ res = LoginThrow e
    | inr data =>
        localStorage st1 !! "pending_2fa_user_id"
        = Some (JS.to_string (user_id data))
        ∧ res = Requires2FA (user_id data)
    end.
Proof.
  intros H2fa. unfold login. destruct answer as [e|data]; [done|].
  rewrite (H2fa data eq_refl). cbn [localStorage_setItem localStorage user].
  repeat split.
  - by rewrite lookup_insert_ne.
  - apply lookup_insert_eq.
Qed.

(** Logout then reload: whatever the logout request yields and however
    stored users are parsed, a reload after logout comes up with no user,
    so that every guarded route, whatever it requires, redirects to
    /login. Logout itself removes no storage entry but 'user'. *)
Theorem logout_then_reload outcome st props :
  let st1 := (AuthProvider.logout outcome st).1 in
  (∀ k, k ≠ "user" → localStorage st1 !! k = localStorage st !! k)
  ∧ user (page (reload JSON_parse st1).1) = None
  ∧ ProtectedRoute.render props
      {| ProtectedRoute.auth_user := user (page (reload JSON_parse st1).1);
         ProtectedRoute.loading := loading (reload JSON_parse st1).1 |}
    = ProtectedRoute.Navigate "/login" true.
Proof.
  cbn zeta. unfold AuthProvider.logout, AuthProvider.logout_finally.
  cbn [fst]. split.
  - intros k Hk. simpl. by rewrite lookup_delete_ne.
  - unfold reload, on_mount, initial.
    cbn [page localStorage localStorage_removeItem setUser set_location_href].
    rewrite lookup_delete_eq. done.
Qed.

End Provider.

Section SessionExpiry.

Import APIClient AuthContext.

Variable JSON_parse : string → JS.Error + option User.
Variable baseURL : string.
Variable net : Network.
Variable endpoint : string.
Variable options : RequestInit.
Variable retries : nat.

(** A call whose first attempt gets a 401 removes the stored user and
    points the location at /login, but leaves the provider's user state
    as it is: a guarded route rendered from that state still answers as
    before the call, and only a reload comes up with no user. *)
Theorem request_unauthorized_session st st' tr c r props :
  0 < retries → net 1 = Resolved r → status r = 401 →
  request baseURL net endpoint options retries st = Some (st', tr, c) →
  st' = signed_out st
  ∧ ProtectedRoute.render props
      {| ProtectedRoute.auth_user := user st'; ProtectedRoute.loading := false |}
    = ProtectedRoute.render props
        {| ProtectedRoute.auth_user := user st; ProtectedRoute.loading := false |}
  ∧ user (page (reload JSON_parse st').1) = None.
Proof.
  intros Hpos Hnet H401 Hr.
  assert (st' = signed_out st) as ->.
  { apply request_loop_runs in Hr.
    inversion Hr as [a s Hgt|a s s1 ev c1 Hle Hit|a s s1 ev s2 ev2 c1 Hle Hit Hrest];
      subst; [lia| |].
    - rewrite (iteration_unauthorized _ _ _ _ _ _ _ Hnet H401 Hle) in Hit.
      by injection Hit as <- _ _.
    - rewrite (iteration_unauthorized _ _ _ _ _ _ _ Hnet H401 Hle) in Hit.
      injection Hit as <- _ _.
      apply runs_state in Hrest as [[->| ->] _];
        [done|apply signed_out_twice]. }
  split; [done|]. split; [done|].
  unfold reload, on_mount, initial, signed_out.
  cbn [page localStorage localStorage_removeItem set_location_href].
  by rewrite lookup_delete_eq.
Qed.

End SessionExpiry.

(** * Roles, the dashboard and the manager route *)

Section Roles.

Import App AuthContext.

(** The /dashboard route: while loading it shows the loading element;
    without a user it redirects to /login, and it is the guard that does
    so, the router's own redirect being out of reach; a user whose role is
    Manager gets the manager dashboard and every other user the employee
    dashboard. *)
Theorem dashboard_route_cases auth :
  dashboard_route auth
  = if ProtectedRoute.loading auth then Loading
    else match ProtectedRoute.auth_user auth with
         | None => Redirect "/login"
         | Some u => if isManager (Some u) then Show ManagerDashboard
                     else Show EmployeeDashboard
         end.
Proof.
  unfold dashboard_route, guarded, ProtectedRoute.render, DashboardRouter.
  destruct (ProtectedRoute.loading auth); [done|].
  by destruct (ProtectedRoute.auth_user auth).
Qed.

(** The role Admin is the one role that the manager route lets in while
    the role helpers and the dashboard treat it as no manager: for a
    signed-in user, the /manager route shows the manager dashboard while
    [isManager] (and its alias [isAdmin]) is false and /dashboard shows
    the employee dashboard, exactly when the role is Admin. *)
Theorem admin_role_mismatch auth u :
  ProtectedRoute.loading auth = false →
  ProtectedRoute.auth_user auth = Some u →
  (manager_route auth = Show ManagerDashboard
   ∧ isAdmin (Some u) = false
   ∧ dashboard_route auth = Show EmployeeDashboard)
  ↔ role u = "Admin".
Proof.
  intros Hl Hu.
  unfold dashboard_route, manager_route, guarded, ProtectedRoute.render,
    DashboardRouter, isAdmin, isManager.
  rewrite Hl, Hu. cbn [ProtectedRoute.requireManager ProtectedRoute.requireAdmin orb andb].
  destruct (String.eqb_spec (role u) "Manager") as [HM|HM];
    destruct (String.eqb_spec (role u) "Admin") as [HA|HA]; cbn [negb andb];
    split; try done; try (intros (? & ? & ?); done); try congruence.
Qed.

(** The role helpers: the legacy names are the new ones, no user is
    neither manager nor employee, and no user is both. *)
Theorem role_helpers u :
  isAdmin u = isManager u ∧ isStudent u = isEmployee u
  ∧ isManager None = false ∧ isEmployee None = false
  ∧ (isManager u && isEmployee u = false).
Proof.
  repeat split; try done.
  destruct u as [u|]; [|done]. unfold isManager, isEmployee.
  destruct (String.eqb_spec (role u) "Manager") as [->|]; done.
Qed.

End Roles.

(** * The error boundary *)

Section Boundary.

Import ErrorBoundary.

Lemma after_snoc ls l : after (ls ++ [l]) = step (after ls) l.
Proof. unfold after. by rewrite foldl_app. Qed.

(** The error and its component stack are set and cleared together. *)
Lemma after_invariant ls :
  is_Some (error (after ls)) → is_Some (errorInfo (after ls)).
Proof.
  induction ls as [|l ls IH] using rev_ind; [by intros [? ?]|].
  rewrite after_snoc. destruct l; simpl; [done|eauto|by intros [? ?]].
Qed.

(** Whatever has happened to the boundary, rendering never fails on a
    missing component stack, in development or not. *)
Theorem render_never_throws dev ls : render dev (after ls) ≠ RenderThrows.
Proof.
  pose proof (after_invariant ls) as Hinv. unfold render.
  destruct (hasError (after ls)); [|done].
  destruct dev; [|done].
  destruct (error (after ls)) as [e|]; [|done].
  destruct (Hinv ltac:(eauto)) as [stack ->]. done.
Qed.

(** After any history, an error caught by the boundary puts up the
    fallback screen, with the error's details in development only, and
    Try Again brings the children back with the state as new. *)
Theorem catch_then_retry dev ls e info :
  render dev (after (ls ++ [DerivedStateFromError; DidCatch e info]))
  = Fallback (if dev then Some (e, info) else None)
  ∧ after (ls ++ [DerivedStateFromError; DidCatch e info; Retry]) = initial
  ∧ render dev (after (ls ++ [DerivedStateFromError; DidCatch e info; Retry]))
    = RenderChildren.
Proof.
  unfold after. rewrite !foldl_app. simpl. unfold render. simpl.
  by destruct dev.
Qed.

End Boundary.

(** * The service worker's caches *)

Section Caches.

Import ServiceWorker.

Lemma cache_match_not_get req c :
  String.eqb (request_method req) "GET" = false → cache_match req c = None.
Proof. unfold cache_match. by intros ->. Qed.

Lemma caches_match_not_get req cs :
  String.eqb (request_method req) "GET" = false → caches_match req cs = None.
Proof.
  intros Hm. induction cs as [|[n c] cs IH]; [done|].
  simpl. by rewrite cache_match_not_get.
Qed.

Lemma caches_match_app req cs1 cs2 :
  caches_match req (cs1 ++ cs2)
  = match caches_match req cs1 with
    | Some r => Some r
    | None => caches_match req cs2
    end.
Proof.
  induction cs1 as [|[n c] cs1 IH]; [done|].
  simpl. by destruct (cache_match req c).
Qed.

Lemma caches_match_open req name cs :
  caches_match req (caches_open name cs) = caches_match req cs.
Proof.
  unfold caches_open. case_bool_decide; [done|].
  rewrite caches_match_app. simpl. unfold cache_match.
  rewrite lookup_empty.
  by destruct (caches_match req cs), (String.eqb (request_method req) "GET").
Qed.


(** Two GET requests with one cache key match alike. *)
Lemma caches_match_same_key q req cs :
  cache_key q = cache_key req →
  String.eqb (request_method q) "GET" = true →
  String.eqb (request_method req) "GET" = true →
  caches_match q cs = caches_match req cs.
Proof.
  intros Hu Hq Hr. induction cs as [|[n c] cs IH]; [done|].
  simpl. unfold cache_match. by rewrite Hq, Hr, Hu, IH.
Qed.

Lemma cache_put_rejected name req r cs :
  cache_accepts req r = false → cache_put name req r cs = cs.
Proof. unfold cache_put. by intros ->. Qed.

(** Storing a response leaves the answer to every other request alone. *)
Lemma caches_match_put_other q name req r cs :
  cache_key q ≠ cache_key req ∨ String.eqb (request_method q) "GET" = false →
  caches_match q (cache_put name req r cs) = caches_match q cs.
Proof.
  intros Hq. unfold cache_put.
  destruct (cache_accepts req r); [|done].
  induction cs as [|[n c] cs IH]; [done|].
  cbn [fmap list_fmap caches_match fst snd]. rewrite IH.
  destruct (String.eqb n name); [|done]. cbn [caches_match].
  unfold cache_match. destruct Hq as [Hq| ->]; [|done].
  destruct (String.eqb (request_method q) "GET"); [|done].
  by rewrite lookup_insert_ne.
Qed.


Variable origin : string.

(** The listener is cache-first and never replaces what is cached: for
    any request and any network, a response that some request matched
    before the listener ran is the response it matches afterwards. *)
Theorem on_fetch_keeps_cached net req cs q r0 :
  caches_match q cs = Some r0 →
  caches_match q (on_fetch origin net req cs).1.1 = Some r0.
Proof.
  intros Hq. unfold on_fetch.
  repeat case_match; cbn [fst]; try done.
  destruct (String.eqb (request_method q) "GET") eqn:Hqm;
    [|by rewrite caches_match_not_get in Hq].
  destruct (String.eqb (request_method req) "GET") eqn:Hrm;
    [|rewrite cache_put_rejected, caches_match_open;
      [done|unfold cache_accepts; by rewrite Hrm]].
  destruct (decide (cache_key q = cache_key req)) as [Hu|Hu].
  - rewrite (caches_match_same_key q req cs Hu Hqm Hrm) in Hq. congruence.
  - rewrite caches_match_put_other by (by left). by rewrite caches_match_open.
Qed.

(** Nothing is stored for a request whose url does not start with the
    worker's origin string or contains /api/ or /auth/, for a request
    that is not a GET, for a response whose status is not ok or is 206,
    and when the network gives no response: every request matches
    afterwards what it matched before. *)
Theorem on_fetch_stores_nothing net req cs q :
  String.prefix origin (url req) = false
  ∨ JS.includes (url req) "/api/" = true
  ∨ JS.includes (url req) "/auth/" = true
  ∨ String.eqb (request_method req) "GET" = false
  ∨ (∃ r, net req = Resolved r ∧ (ok r = false ∨ status r = 206))
  ∨ (∃ e, net req = Rejected e) →
  caches_match q (on_fetch origin net req cs).1.1 = caches_match q cs.
Proof.
  intros Hwhy. unfold on_fetch.
  repeat case_match; cbn [fst]; try done.
  destruct Hwhy as [Hw|[Hw|[Hw|[Hw|[(rw & Hw1 & Hw2)|(ew & Hw)]]]]];
    simplify_eq; try congruence.
  - by rewrite Hw in *.
  - by rewrite Hw in *.
  - by rewrite Hw, orb_true_r in *.
  - rewrite cache_put_rejected, caches_match_open;
      [done|unfold cache_accepts; by rewrite Hw].
  - destruct Hw2 as [Hw2|Hw2]; [by rewrite Hw2 in *|].
    rewrite cache_put_rejected, caches_match_open; [done|].
    unfold cache_accepts. rewrite Hw2. by rewrite andb_false_r.
Qed.


End Caches.

Section Activation.

Import ServiceWorker.

Lemma caches_delete_filter name cs :
  caches_delete name cs = filter (λ entry, entry.1 ≠ name) cs.
Proof. reflexivity. Qed.

Lemma filter_ext_in {A} (P Q : A → Prop)
    `{!∀ x, Decision (P x), !∀ x, Decision (Q x)} (l : list A) :
  (∀ x, x ∈ l → P x ↔ Q x) → filter P l = filter Q l.
Proof.
  induction l as [|x l IH]; intros Hext; [done|].
  rewrite !filter_cons.
  rewrite IH by (intros y Hy; apply Hext; by right).
  destruct (decide (P x)) as [HP|HP], (decide (Q x)) as [HQ|HQ]; try done.
  - exfalso. apply HQ, Hext; [by left|done].
  - exfalso. apply HP, Hext; [by left|done].
Qed.

Lemma foldr_caches_delete names cs :
  foldr caches_delete cs names = filter (λ entry, entry.1 ∉ names) cs.
Proof.
  unfold CacheStorage in *.
  induction names as [|n names IH]; cbn [foldr].
  - induction cs as [|e cs IHcs]; [done|].
    rewrite filter_cons_True by apply not_elem_of_nil. by f_equal.
  - rewrite IH. unfold caches_delete, CacheStorage. rewrite list_filter_filter.
    apply list_filter_iff. intros x. rewrite not_elem_of_cons. done.
Qed.

(** Activation keeps the two current caches, with what they hold and in
    their order, and removes every other cache. *)
Theorem on_activate_keeps_current cs :
  on_activate cs
  = filter (λ entry, entry.1 = STATIC_CACHE ∨ entry.1 = DYNAMIC_CACHE) cs.
Proof.
  unfold on_activate. rewrite foldr_caches_delete.
  unfold CacheStorage in *. apply filter_ext_in. intros [n c] Hin. simpl.
  rewrite list_elem_of_filter. split.
  - intros Hno. destruct (decide (n = STATIC_CACHE)) as [|Hs]; [by left|].
    destruct (decide (n = DYNAMIC_CACHE)) as [|Hd]; [by right|].
    exfalso. apply Hno. split; [done|].
    unfold cache_names. apply list_elem_of_fmap. by exists (n, c).
  - intros [->| ->] [[? ?] _]; done.
Qed.

End Activation.

(** * The properties above on concrete inputs *)

Section MoreWitnesses.

Import APIClient Fixtures Samples.

Lemma request_state_footprint_witness :
  ∃ st' tr c,
    request "" (always not_found) "/tasks/7" get_options 3 browser
    = Some (st', tr, c)
    ∧ (st' = browser ∨ st' = signed_out browser)
    ∧ ((∀ n r, 1 ≤ n ≤ 3 → always not_found n = Resolved r → status r ≠ 401) →
       st' = browser)
    ∧ user st' = user browser
    ∧ ∀ k, k ≠ "user" → localStorage st' !! k = localStorage browser !! k.
Proof.
  eexists _, _, _. split; [vm_compute; reflexivity|].
  eapply (request_state_footprint "" (always not_found) "/tasks/7" get_options 3
           browser _ _ _).
  vm_compute. reflexivity.
Defined.

Lemma request_waits_between_attempts_witness :
  ∃ st' tr c,
    request "" (always not_found) "/tasks/7" get_options 3 browser
    = Some (st', tr, c)
    ∧ length (fetched tr) = S (length (sleeps tr)).
Proof.
  eexists _, _, _. split; [vm_compute; reflexivity|].
  eapply (request_waits_between_attempts "" (always not_found) "/tasks/7"
           get_options 3 browser _ _ _ ltac:(lia)).
  vm_compute. reflexivity.
Defined.

Lemma request_throw_is_logged_witness :
  ∃ st' tr,
    request "" (always not_found) "/tasks/7" get_options 3 browser
    = Some (st', tr, Throw (JS.new_Error "Task not found"))
    ∧ ((JS.new_Error "Task not found" = networkError
        ∧ ∃ pre, tr = pre ++ [EvFetch ("" +:+ "/tasks/7") (config get_options)])
       ∨ ∃ pre, tr = pre ++ [EvConsoleError "API Error:"
                               (JS.new_Error "Task not found")]).
Proof.
  eexists _, _. split; [vm_compute; reflexivity|].
  eapply (request_throw_is_logged "" (always not_found) "/tasks/7" get_options 3
           browser _ _ _).
  vm_compute. reflexivity.
Defined.

Lemma request_return_sound_witness :
  ∃ st' tr,
    request "" flaky "/projects" get_options 3 browser
    = Some (st', tr, Return payload)
    ∧ ∃ n r, 1 ≤ n ≤ 3 ∧ flaky n = Resolved r
             ∧ ok r = true ∧ json r = Some payload
             ∧ ∃ pre, tr = pre ++ [EvFetch ("" +:+ "/projects") (config get_options)].
Proof.
  eexists _, _. split; [vm_compute; reflexivity|].
  eapply (request_return_sound "" flaky "/projects" get_options 3 browser _ _ _).
  vm_compute. reflexivity.
Defined.

Lemma request_undefined_iff_witness :
  ∃ st' tr c,
    request "" flaky "/projects" get_options 0 browser = Some (st', tr, c)
    ∧ (c = ReturnUndefined ↔ 0 = 0)
    ∧ (0 = 0 → tr = [] ∧ st' = browser).
Proof.
  eexists _, _, _. split; [vm_compute; reflexivity|].
  eapply (request_undefined_iff "" flaky "/projects" get_options 0 browser _ _ _).
  vm_compute. reflexivity.
Defined.

Lemma request_recovers_witness :
  request "" flaky "/projects" get_options 3 browser
  = Some (browser,
          retry_trace flaky ("" +:+ "/projects") (config get_options) 1 (3 - 1)
          ++ [EvFetch ("" +:+ "/projects") (config get_options)],
          Return payload).
Proof.
  eapply (request_recovers "" flaky "/projects" get_options 3 3 browser
           ok_response payload ltac:(lia)); try reflexivity.
  intros i Hi. exists server_down. split; [|reflexivity].
  unfold flaky. by destruct (Nat.ltb_spec i 3); [|lia].
Defined.

Lemma request_exhausts_witness :
  request "" (always server_down) "/projects" get_options 3 browser
  = Some (browser,
          retry_trace (always server_down) ("" +:+ "/projects")
            (config get_options) 1 (3 - 1)
          ++ [EvFetch ("" +:+ "/projects") (config get_options);
              EvConsoleError "API Error:" (exhausted_error server_down)],
          Throw (exhausted_error server_down)).
Proof.
  eapply (request_exhausts "" (always server_down) "/projects" get_options 3
           browser server_down ltac:(lia)); try reflexivity.
  intros i Hi. by exists server_down.
Defined.

Lemma request_backoff_schedule_witness :
  ∃ st' tr c,
    request "" (always server_down) "/projects" get_options 3 browser
    = Some (st', tr, c)
    ∧ sleeps tr = JS.backoff <$> seq 1 (length (fetched tr) - 1).
Proof.
  eexists _, _, _. split; [vm_compute; reflexivity|].
  eapply (request_backoff_schedule "" (always server_down) "/projects"
           get_options 3 browser _ _ _ ltac:(lia)).
  - intros n r _ [= <-]. discriminate.
  - vm_compute. reflexivity.
Defined.

Lemma request_client_error_terminal_witness :
  request "" (always bad_request) "/tasks" get_options 3 browser
  = Some (browser,
          retry_trace (always bad_request) ("" +:+ "/tasks")
            (config get_options) 1 (1 - 1)
          ++ [EvFetch ("" +:+ "/tasks") (config get_options);
              EvConsoleError "API Error:" (JS.new_Error (http_message bad_request))],
          Throw (JS.new_Error (http_message bad_request))).
Proof.
  eapply (request_client_error_terminal "" (always bad_request) "/tasks"
           get_options 3 1 browser bad_request ltac:(lia));
    try reflexivity; try discriminate.
  - intros i Hi. lia.
  - simpl. lia.
  - by left.
Defined.

Lemma login_then_reload_witness :
  let data := {| AuthContext.two_factor_enabled := false;
                 AuthContext.user_id := 7;
                 AuthContext.data_user := Some jane |} in
  let st1 := (AuthContext.login stringify (inr data) browser).1.1 in
  user st1 = Some jane
  ∧ user (AuthContext.page (AuthContext.reload parse st1).1) = Some jane
  ∧ AuthContext.loading (AuthContext.reload parse st1).1 = false.
Proof.
  apply (login_then_reload parse stringify
           {| AuthContext.two_factor_enabled := false;
              AuthContext.user_id := 7;
              AuthContext.data_user := Some jane |} jane browser);
    try reflexivity; discriminate.
Defined.

Lemma login_without_user_then_reload_witness :
  let data := {| AuthContext.two_factor_enabled := false;
                 AuthContext.user_id := 7;
                 AuthContext.data_user := None |} in
  let st1 := (AuthContext.login stringify (inr data) browser).1.1 in
  localStorage st1 !! "user" = Some "undefined"
  ∧ user st1 = None
  ∧ AuthContext.reload parse st1
    = ({| AuthContext.page := {| localStorage := localStorage st1;
                                 location_href := location_href st1;
                                 user := None |};
          AuthContext.loading := false |}, []).
Proof.
  apply (login_without_user_then_reload parse stringify
           {| AuthContext.two_factor_enabled := false;
              AuthContext.user_id := 7;
              AuthContext.data_user := None |} browser); reflexivity.
Defined.

Lemma login_without_session_witness :
  let data := {| AuthContext.two_factor_enabled := true;
                 AuthContext.user_id := 7;
                 AuthContext.data_user := Some jane |} in
  let '(st1, ev, res) := AuthContext.login stringify (inr data) browser in
  user st1 = user browser
  ∧ localStorage st1 !! "user" = localStorage browser !! "user"
  ∧ ev = []
  ∧ localStorage st1 !! "pending_2fa_user_id" = Some (JS.to_string 7)
    ∧ res = AuthContext.Requires2FA 7.
Proof.
  apply (login_without_session stringify
           (inr {| AuthContext.two_factor_enabled := true;
                   AuthContext.user_id := 7;
                   AuthContext.data_user := Some jane |}) browser).
  intros data [= <-]. reflexivity.
Defined.

Lemma request_unauthorized_session_witness :
  ∃ st' tr c,
    request "" (always unauthorized) "/projects" get_options 3 browser
    = Some (st', tr, c)
    ∧ st' = signed_out browser
    ∧ ProtectedRoute.render ProtectedRoute.default_props
        {| ProtectedRoute.auth_user := user st'; ProtectedRoute.loading := false |}
      = ProtectedRoute.render ProtectedRoute.default_props
          {| ProtectedRoute.auth_user := user browser;
             ProtectedRoute.loading := false |}
    ∧ user (AuthContext.page (AuthContext.reload parse st').1) = None.
Proof.
  eexists _, _, _. split; [vm_compute; reflexivity|].
  eapply (request_unauthorized_session parse "" (always unauthorized) "/projects"
           get_options 3 browser _ _ _ unauthorized ProtectedRoute.default_props
           ltac:(lia) eq_refl eq_refl).
  vm_compute. reflexivity.
Defined.

Lemma admin_role_mismatch_witness :
  App.manager_route {| ProtectedRoute.auth_user := Some root;
                       ProtectedRoute.loading := false |}
  = App.Show App.ManagerDashboard
  ∧ AuthContext.isAdmin (Some root) = false
  ∧ App.dashboard_route {| ProtectedRoute.auth_user := Some root;
                           ProtectedRoute.loading := false |}
    = App.Show App.EmployeeDashboard.
Proof.
  apply (admin_role_mismatch {| ProtectedRoute.auth_user := Some root;
                                ProtectedRoute.loading := false |} root
           eq_refl eq_refl).
  reflexivity.
Defined.

Lemma on_fetch_keeps_cached_witness :
  ServiceWorker.caches_match tasks_request
    (ServiceWorker.on_fetch origin offline tasks_request
       [(ServiceWorker.DYNAMIC_CACHE,
         {[ ServiceWorker.url tasks_request := ok_response ]})]).1.1
  = Some ok_response.
Proof.
  apply (on_fetch_keeps_cached origin offline tasks_request
           [(ServiceWorker.DYNAMIC_CACHE,
             {[ ServiceWorker.url tasks_request := ok_response ]})]
           tasks_request ok_response).
  vm_compute. reflexivity.
Defined.

Lemma on_fetch_stores_nothing_witness :
  ServiceWorker.caches_match session_request
    (ServiceWorker.on_fetch origin online session_request warm_caches).1.1
  = ServiceWorker.caches_match session_request warm_caches.
Proof.
  apply (on_fetch_stores_nothing origin online session_request warm_caches
           session_request).
  right. right. left. vm_compute. reflexivity.
Defined.


End MoreWitnesses.

(** * Retry-After values *)

Section RetryAfter.

Import APIClient.

Lemma parseInt_not_numeric c rest :
  JS.is_whitespace c = false → c ≠ "-"%char → c ≠ "+"%char →
  (∀ d, JS.digit_value c = Some d → (10 ≤ d)%Z) →
  JS.parseInt (String c rest) = JS.NaN.
Proof.
  intros Hw Hm Hp Hd. unfold JS.parseInt.
  cbn [JS.trim_start]. rewrite Hw.
  assert (JS.strip_sign (String c rest) = (1%Z, String c rest)) as ->.
  { destruct c as [[] [] [] [] [] [] [] []]; try reflexivity;
      by (exfalso; (apply Hm || apply Hp)). }
  assert (JS.strip_hex_prefix (String c rest) = (10%Z, String c rest)) as ->.
  { destruct c as [[] [] [] [] [] [] [] []]; try reflexivity.
    specialize (Hd 0%Z eq_refl). lia. }
  cbn [JS.parse_digits].
  destruct (JS.digit_value c) as [d|] eqn:Hc; [|done].
  specialize (Hd d eq_refl).
  by assert ((d <? 10)%Z = false) as -> by (apply Z.ltb_ge; lia).
Qed.

(** The wait after a 429 by the form of its Retry-After header: the
    decimal text of [n] seconds gives [n * 1000] ms for every [n] with
    [n * 1000] within the integers a double holds exactly; an empty header
    gives the exponential delay, as a missing one does; and a header that
    starts with a letter, as an HTTP date does, gives NaN, not a delay. *)
Theorem rate_limit_delay_by_header attempt r :
  (∀ n, retryAfter r = Some (JS.to_string n) →
        (Z.of_nat n * 1000 ≤ 2 ^ 53)%Z →
        rate_limit_delay attempt r = JS.Num (Z.of_nat n * 1000))
  ∧ (retryAfter r = Some "" ∨ retryAfter r = None →
     rate_limit_delay attempt r = JS.Num (2 ^ Z.of_nat attempt * 1000))
  ∧ (∀ c rest, retryAfter r = Some (String c rest) →
       JS.is_whitespace c = false →
       (∀ d, JS.digit_value c = Some d → (10 ≤ d)%Z) →
       c ≠ "-"%char → c ≠ "+"%char →
       rate_limit_delay attempt r = JS.NaN).
Proof.
  split; [|split].
  - intros n Hr _. by apply rate_limit_delay_seconds.
  - unfold rate_limit_delay. by intros [-> | ->].
  - intros c rest Hr Hw Hd Hm Hp. unfold rate_limit_delay. rewrite Hr.
    cbn [JS.truthy String.eqb negb from_option id].
    by rewrite parseInt_not_numeric.
Qed.

End RetryAfter.

Section HeaderWitnesses.

Import APIClient Fixtures Samples.

Lemma rate_limit_delay_by_header_witness :
  rate_limit_delay 1 (response 429 "Too Many Requests" (Some (JS.to_string 60)) None)
  = JS.Num (Z.of_nat 60 * 1000)
  ∧ rate_limit_delay 1 (response 429 "Too Many Requests" (Some "") None)
    = JS.Num (2 ^ Z.of_nat 1 * 1000)
  ∧ rate_limit_delay 1
      (response 429 "Too Many Requests"
         (Some "Wed, 21 Oct 2026 07:28:00 GMT") None)
    = JS.NaN.
Proof.
  split; [|split].
  - apply (proj1 (rate_limit_delay_by_header 1
             (response 429 "Too Many Requests" (Some (JS.to_string 60)) None)) 60).
    + reflexivity.
    + vm_compute. discriminate.
  - apply (proj1 (proj2 (rate_limit_delay_by_header 1
             (response 429 "Too Many Requests" (Some "") None)))).
    by left.
  - apply (proj2 (proj2 (rate_limit_delay_by_header 1
             (response 429 "Too Many Requests"
                (Some "Wed, 21 Oct 2026 07:28:00 GMT") None)))
             "W"%char "ed, 21 Oct 2026 07:28:00 GMT"%string);
      try reflexivity; try discriminate.
    intros d Hd. vm_compute in Hd. injection Hd as <-. lia.
Defined.

Lemma on_mount_footprint_witness :
  AuthContext.on_mount parse
    (AuthContext.initial {[ "user" := "undefined" ]} "/dashboard")
  = ({| AuthContext.page :=
          AuthContext.page
            (AuthContext.initial {[ "user" := "undefined" ]} "/dashboard");
        AuthContext.loading := false |}, []).
Proof.
  apply (on_mount_footprint parse
           (AuthContext.initial {[ "user" := "undefined" ]} "/dashboard")).
  right. right. reflexivity.
Defined.

Lemma request_config_precedence_witness :
  Forall (λ sent,
      credentials sent.2 = Some "include"
      ∧ method sent.2 = method get_options
      ∧ body sent.2 = body get_options
      ∧ (∀ k v, headers get_options !! k = Some v → headers sent.2 !! k = Some v)
      ∧ (∀ k, headers get_options !! k = None →
              headers sent.2 !! k = getAuthHeaders !! k))
    (fetched (trace_of (request "" flaky "/projects" get_options 3 browser))).
Proof.
  exact (request_config_precedence "" flaky "/projects" get_options 3 browser).
Defined.

End HeaderWitnesses.
